(** * Chubflix "Next Episode" stage: a shallow embedding of Stage.tsx

    The stage tracks a position inside the ordered greetings ("episodes") of
    a character, derives a title per episode, and reports its position to
    the host through the chat / message snapshots returned by its lifecycle
    hooks.  The definitions below follow the TypeScript class [Stage] method
    by method; theorems come after all definitions. *)

From Stdlib Require Import ZArith NArith Bool Ascii String DecimalString Lia.
From stdpp Require Import base list.

Set Default Proof Using "Type".

(** ** JavaScript strings and the primitives the stage calls on them *)

Module JS.

(** A JavaScript string is a sequence of UTF-16 code units; [length],
    [trim], [split] and the regular expressions of the stage (none has the
    [u] flag) all work on code units. *)
Definition jsstring : Type := list N.

(** Reading a literal of the development as a JavaScript string (one code
    unit per character of the literal). *)
Definition js (s : string) : jsstring :=
  List.map N_of_ascii (list_ascii_of_string s).

Definition LF : jsstring := [10%N].

(** ECMAScript [WhiteSpace]: TAB, VT, FF, SP, NBSP, ZWNBSP and category Zs. *)
Definition isWhiteSpace (c : N) : bool :=
  ((c =? 9) || (c =? 11) || (c =? 12) || (c =? 32) || (c =? 160)
   || (c =? 5760) || ((8192 <=? c) && (c <=? 8202))
   || (c =? 8239) || (c =? 8287) || (c =? 12288) || (c =? 65279))%N.

(** ECMAScript [LineTerminator]: LF, CR, LS, PS. *)
Definition isLineTerminator (c : N) : bool :=
  ((c =? 10) || (c =? 13) || (c =? 8232) || (c =? 8233))%N.

(** What [String.prototype.trim] removes and what [\s] matches. *)
Definition isSpace (c : N) : bool := isWhiteSpace c || isLineTerminator c.

(** What [.] matches without the [s] flag. *)
Definition isDot (c : N) : bool := negb (isLineTerminator c).

(** [\d] *)
Definition isDigit (c : N) : bool := ((48 <=? c) && (c <=? 57))%N.

Fixpoint trimStart (s : jsstring) : jsstring :=
  match s with
  | c :: s' => if isSpace c then trimStart s' else s
  | [] => []
  end.

Definition trimEnd (s : jsstring) : jsstring := rev (trimStart (rev s)).

(** [s.trim()] *)
Definition trim (s : jsstring) : jsstring := trimEnd (trimStart s).

(** [s.split('\n')[0]]: the text before the first LF (all of [s] when it
    has none; the empty string when [s] is empty). *)
Fixpoint firstLine (s : jsstring) : jsstring :=
  match s with
  | c :: s' => if (c =? 10)%N then [] else c :: firstLine s'
  | [] => []
  end.

(** The character class of the fallback's [replace]: star, hash and the
    double quote. *)
Definition isMarker (c : N) : bool := ((c =? 42) || (c =? 35) || (c =? 34))%N.

(** [s.replace(re, '')] for that class with the [g] flag: every marker is
    deleted. *)
Definition stripMarkers (s : jsstring) : jsstring :=
  List.filter (fun c => negb (isMarker c)) s.

(** Truthiness of a string: only the empty string is falsy. *)
Definition truthy (s : jsstring) : bool :=
  match s with [] => false | _ :: _ => true end.

(** [x || d] on an optional string ([None] is [null] / [undefined]). *)
Definition orElse (x : option jsstring) (d : jsstring) : jsstring :=
  match x with
  | Some s => if truthy s then s else d
  | None => d
  end.

(** Number-to-string conversion of a template literal.  Numbers of the
    stage are episode indices and counts; they are modelled as mathematical
    integers, which is what JavaScript computes on the safe-integer range. *)
Definition show (z : Z) : jsstring := js (NilZero.string_of_int (Z.to_int z)).

End JS.

Import JS.

(** ** The regular expressions of [extractTitleFromGreeting]

    Every pattern is anchored by [^] and has no [g], [m] or [y] flag, so
    [String.prototype.match] tries it at index 0 only.  The combinators keep
    the backtracking order of the ECMAScript matcher: a greedy quantifier
    tries the longest run first, a lazy one the shortest, and the first
    success of the continuation wins. *)

Module Regex.

Section Combinators.
Context {A : Type}.

(** A continuation receives the text matched by the quantifier and the
    remaining input. *)
Definition cont : Type := jsstring -> jsstring -> option A.

(** [cls+] *)
Fixpoint greedyPlus (cls : N -> bool) (s : jsstring) (k : cont) : option A :=
  match s with
  | c :: s' =>
      if cls c then
        match greedyPlus cls s' (fun m r => k (c :: m) r) with
        | Some a => Some a
        | None => k [c] s'
        end
      else None
  | [] => None
  end.

(** [cls*] *)
Definition greedyStar (cls : N -> bool) (s : jsstring) (k : cont) : option A :=
  match greedyPlus cls s k with
  | Some a => Some a
  | None => k [] s
  end.

(** [cls+?] *)
Fixpoint lazyPlus (cls : N -> bool) (s : jsstring) (k : cont) : option A :=
  match s with
  | c :: s' =>
      if cls c then
        match k [c] s' with
        | Some a => Some a
        | None => lazyPlus cls s' (fun m r => k (c :: m) r)
        end
      else None
  | [] => None
  end.

(** A literal, compared code unit by code unit with [eqc]. *)
Fixpoint literal (eqc : N -> N -> bool) (p s : jsstring) (k : jsstring -> option A)
  : option A :=
  match p with
  | [] => k s
  | a :: p' =>
      match s with
      | c :: s' => if eqc a c then literal eqc p' s' k else None
      | [] => None
      end
  end.
End Combinators.

(** Case-insensitive comparison of the [i] flag for an ASCII letter of the
    pattern: without the [u] flag the matcher canonicalises with
    [toUpperCase] and never maps a code unit above 127 to one below 128, so a
    letter of the pattern matches exactly its two ASCII cases. *)
Definition toUpperASCII (c : N) : N :=
  if ((97 <=? c) && (c <=? 122))%N then (c - 32)%N else c.

Definition eqIgnoreCase (a c : N) : bool :=
  (toUpperASCII a =? toUpperASCII c)%N.

(** [(?:\n|$)]: a LF follows, or the input ends here. *)
Definition newlineOrEnd (s : jsstring) : bool :=
  match s with
  | [] => true
  | c :: _ => (c =? 10)%N
  end.

Definition isNot (x : N) (c : N) : bool := negb (c =? x)%N.

(** [/^\*\*([^*]+)\*\*/] *)
Definition boldPattern (s : jsstring) : option jsstring :=
  literal N.eqb (js "**") s (fun s1 =>
    greedyPlus (isNot 42) s1 (fun cap s2 =>
      literal N.eqb (js "**") s2 (fun _ => Some cap))).

(** [/^#\s+(.+?)(?:\n|$)/] *)
Definition headingPattern (s : jsstring) : option jsstring :=
  literal N.eqb (js "#") s (fun s1 =>
    greedyPlus isSpace s1 (fun _ s2 =>
      lazyPlus isDot s2 (fun cap s3 =>
        if newlineOrEnd s3 then Some cap else None))).

(** The third pattern: a double quote at the start, one or more code units
    other than a double quote (the capture), and a double quote. *)
Definition quotedPattern (s : jsstring) : option jsstring :=
  literal N.eqb [34%N] s (fun s1 =>
    greedyPlus (isNot 34) s1 (fun cap s2 =>
      literal N.eqb [34%N] s2 (fun _ => Some cap))).

(** [/^Episode\s+\d+:\s*(.+?)(?:\n|$)/i] *)
Definition episodePattern (s : jsstring) : option jsstring :=
  literal eqIgnoreCase (js "Episode") s (fun s1 =>
    greedyPlus isSpace s1 (fun _ s2 =>
      greedyPlus isDigit s2 (fun _ s3 =>
        literal N.eqb (js ":") s3 (fun s4 =>
          greedyStar isSpace s4 (fun _ s5 =>
            lazyPlus isDot s5 (fun cap s6 =>
              if newlineOrEnd s6 then Some cap else None)))))).

(** The array [patterns], in source order. *)
Definition patterns : list (jsstring -> option jsstring) :=
  [boldPattern; headingPattern; quotedPattern; episodePattern].

End Regex.

(** ** Title extraction *)

(** The [for (const pattern of patterns)] loop: the capture group of the
    first pattern that matches the trimmed greeting, trimmed. *)
Fixpoint firstMatch (ps : list (jsstring -> option jsstring)) (greeting : jsstring)
  : option jsstring :=
  match ps with
  | [] => None
  | pattern :: ps' =>
      match pattern (trim greeting) with
      | Some cap => Some (trim cap)
      | None => firstMatch ps' greeting
      end
  end.

(** [extractTitleFromGreeting]; [None] is the [null] the method returns. *)
Definition extractTitleFromGreeting (greeting : jsstring) : option jsstring :=
  match firstMatch Regex.patterns greeting with
  | Some title => Some title
  | None =>
      let firstLine := firstLine (trim greeting) in
      if truthy firstLine && (length firstLine <=? 50)%nat
      then Some (trim (stripMarkers firstLine))
      else None
  end.


(** ** Data exchanged with the host *)

Local Open Scope Z_scope.

(** A JavaScript number read from a persisted snapshot.  The stage only
    ever stores integers; [NaN] is the one value of type [number] that [||]
    treats as missing besides zero. *)
Inductive jsnumber : Type :=
  | Num (z : Z)
  | NaN.

(** [x || 0] on an optional number; [None] is [undefined] or [null]. *)
Definition numOrZero (x : option jsnumber) : Z :=
  match x with
  | Some (Num z) => if z =? 0 then 0 else z
  | Some NaN => 0
  | None => 0
  end.

(** The host's message object, with the fields the test runner fills in.
    The stage never inspects it: it is logged and echoed as [lastData]. *)
Module Message.
Record t : Type := mk
    { content : jsstring;
      is_user : bool;
      anonymous_id : jsstring;
      name : jsstring }.
End Message.

Module InitState.
Record t : Type := mk
    { totalEpisodes : Z;
      characterName : jsstring;
      episodeTitles : list jsstring }.
End InitState.

Module MessageState.
Record t : Type := mk
    { currentEpisode : option jsnumber;
      startedAt : Z;
      lastEvent : option jsstring;
      lastData : option Message.t }.
End MessageState.

Module ChatState.
Record t : Type := mk
    { highestEpisodeReached : Z;
      completed : bool }.
End ChatState.

Inductive Theme : Type := dark | light | chubflix.

Record ConfigType : Type := mkConfig
  { showEpisodeNumber : bool;
    showProgress : bool;
    buttonText : jsstring;
    injectContext : bool;
    theme : Theme }.

(** The configuration object the host passes: any key may be left out. *)
Module PartialConfig.
Record t : Type := mk
    { showEpisodeNumber : option bool;
      showProgress : option bool;
      buttonText : option jsstring;
      injectContext : option bool;
      theme : option Theme }.
End PartialConfig.

(** [alternate_greetings] as the constructor tests it: missing (or falsy), a
    value that is not an array, or an array of greetings. *)
Inductive Greetings : Type :=
  | GreetingsAbsent
  | GreetingsNotArray
  | GreetingsArray (greetings : list jsstring).

Module Character.
Record t : Type := mk
    { name : option jsstring;
      first_mes : option jsstring;
      alternate_greetings : Greetings }.
End Character.

(** [data.characters] as the constructor tests it. *)
Inductive Characters : Type :=
  | CharactersAbsent
  | CharactersNotArray
  | CharactersArray (characters : list Character.t).

Module InitialData.
Record t : Type := mk
    { characters : Characters;
      config : option PartialConfig.t;
      initState : option InitState.t;
      chatState : option ChatState.t;
      messageState : option MessageState.t }.
End InitialData.

(** *** Construction input as the host can really send it

    The types above are the declared ones.  The constructor receives parsed
    JSON, and two of its accesses fail on values the declared types rule
    out: [mainChar.name] when the first entry of [characters] is [null], and
    [greeting.trim()] when a greeting is not a string.  The types below
    admit those values. *)

(** A value found where a greeting string is expected: a string, [null] or
    [undefined], or any other JSON value (number, boolean, array, object),
    none of which has a [trim] method; [truthy] tells whether [if (v)] holds
    of it. *)
Inductive RawGreeting : Type :=
  | RawString (s : jsstring)
  | RawNullish
  | RawNonString (truthy : bool).

Inductive RawGreetings : Type :=
  | RawGreetingsAbsent
  | RawGreetingsNotArray
  | RawGreetingsArray (greetings : list RawGreeting).

Module RawCharacter.
Record t : Type := mk
    { name : option jsstring;
      first_mes : RawGreeting;
      alternate_greetings : RawGreetings }.
End RawCharacter.

(** An entry of the array is an object, or [None] for [null] / [undefined]. *)
Inductive RawCharacters : Type :=
  | RawCharactersAbsent
  | RawCharactersNotArray
  | RawCharactersArray (characters : list (option RawCharacter.t)).

Module RawInitialData.
Record t : Type := mk
    { characters : RawCharacters;
      config : option PartialConfig.t;
      initState : option InitState.t;
      chatState : option ChatState.t;
      messageState : option MessageState.t }.
End RawInitialData.

Module LoadResponse.
Record t : Type := mk
    { success : bool;
      error : option jsstring;
      initState : InitState.t;
      chatState : ChatState.t }.
End LoadResponse.

Module StageResponse.
Record t : Type := mk
    { stateMessage : jsstring;
      messageState : MessageState.t;
      chatState : ChatState.t;
      modifiedMessage : option jsstring;
      systemMessage : option jsstring }.
End StageResponse.

(** The [currentState] object that the two turn hooks log. *)
Record CurrentState : Type := mkCurrentState
  { cs_currentEpisode : Z;
    cs_totalEpisodes : Z;
    cs_highestEpisodeReached : Z;
    cs_completed : bool }.

(** The [data] payload of a log entry, one constructor per call site of
    [addDebugLog]. *)
Inductive DebugData : Type :=
  | DataConstructor (data : InitialData.t)
  | DataConstructorRaw (data : RawInitialData.t)
  | DataLoad (response : LoadResponse.t)
  | DataTurn (message : Message.t) (currentState : CurrentState)
  | DataResponse (response : StageResponse.t)
  | DataSetState (newState : option MessageState.t) (previousEpisode : Z)
  | DataNext (newEpisode highest : Z) (completed : bool)
  | DataPrevious (newEpisode : Z).

Record DebugLogEntry : Type := mkEntry
  { timestamp : Z;
    event : jsstring;
    data : DebugData }.

(** ** The stage object *)

Record Stage : Type := mkStage
  { debugLog : list DebugLogEntry;
    currentEpisode : Z;
    totalEpisodes : Z;
    episodeTitles : list jsstring;
    characterName : jsstring;
    highestEpisodeReached : Z;
    completed : bool;
    config : ConfigType }.

(** The field initialisers of the class. *)
Definition defaultConfig : ConfigType :=
  {| showEpisodeNumber := true;
     showProgress := true;
     buttonText := js "Next Episode";
     injectContext := true;
     theme := chubflix |}.

Definition fieldInitializers : Stage :=
  {| debugLog := [];
     currentEpisode := 0;
     totalEpisodes := 1;
     episodeTitles := [];
     characterName := [];
     highestEpisodeReached := 0;
     completed := false;
     config := defaultConfig |}.

(** Field updates, one per assigned field. *)
Definition setDebugLog (l : list DebugLogEntry) (s : Stage) : Stage :=
  mkStage l (currentEpisode s) (totalEpisodes s) (episodeTitles s)
    (characterName s) (highestEpisodeReached s) (completed s) (config s).
Definition setCurrentEpisode (z : Z) (s : Stage) : Stage :=
  mkStage (debugLog s) z (totalEpisodes s) (episodeTitles s)
    (characterName s) (highestEpisodeReached s) (completed s) (config s).
Definition setTotalEpisodes (z : Z) (s : Stage) : Stage :=
  mkStage (debugLog s) (currentEpisode s) z (episodeTitles s)
    (characterName s) (highestEpisodeReached s) (completed s) (config s).
Definition setEpisodeTitles (l : list jsstring) (s : Stage) : Stage :=
  mkStage (debugLog s) (currentEpisode s) (totalEpisodes s) l
    (characterName s) (highestEpisodeReached s) (completed s) (config s).
Definition setCharacterName (n : jsstring) (s : Stage) : Stage :=
  mkStage (debugLog s) (currentEpisode s) (totalEpisodes s) (episodeTitles s)
    n (highestEpisodeReached s) (completed s) (config s).
Definition setHighestEpisodeReached (z : Z) (s : Stage) : Stage :=
  mkStage (debugLog s) (currentEpisode s) (totalEpisodes s) (episodeTitles s)
    (characterName s) z (completed s) (config s).
Definition setCompleted (b : bool) (s : Stage) : Stage :=
  mkStage (debugLog s) (currentEpisode s) (totalEpisodes s) (episodeTitles s)
    (characterName s) (highestEpisodeReached s) b (config s).
Definition setConfig (c : ConfigType) (s : Stage) : Stage :=
  mkStage (debugLog s) (currentEpisode s) (totalEpisodes s) (episodeTitles s)
    (characterName s) (highestEpisodeReached s) (completed s) c.

(** ** Diagnostic log *)

(** [l.slice(-n)]: the last [n] entries, all of [l] when it has fewer. *)
Definition sliceLast {A : Type} (n : nat) (l : list A) : list A :=
  drop (length l - n) l.

(** [addDebugLog(event, data)], with [now] the reading of [Date.now()].
    The optional [onDebugUpdate] observer and [console.log] only look at the
    entry; they are outside the stage and not part of its state. *)
Definition addDebugLog (now : Z) (ev : jsstring) (d : DebugData) (this : Stage) : Stage :=
  let logEntry := mkEntry now ev d in
  let this := setDebugLog (debugLog this ++ [logEntry]) this in
  if (50 <? length (debugLog this))%nat
  then setDebugLog (sliceLast 50 (debugLog this)) this
  else this.

Definition clearDebugLog (this : Stage) : Stage := setDebugLog [] this.

(** ** Episode catalog *)

(** The body of the [forEach] callback over [alternate_greetings]: one
    [push] per greeting, [index] counting from the position of the first
    greeting of [greetings]. *)
Fixpoint pushAlternateTitles (greetings : list jsstring) (index : nat)
    (titles : list jsstring) : list jsstring :=
  match greetings with
  | [] => titles
  | greeting :: rest =>
      let title := extractTitleFromGreeting greeting in
      pushAlternateTitles rest (S index)
        (titles ++ [orElse title (js "Episode " ++ show (Z.of_nat index + 2))])
  end.

(** [extractEpisodeTitles(character)] *)
Definition extractEpisodeTitles (character : Character.t) : list jsstring :=
  let titles : list jsstring := [] in
  let titles :=
    match Character.first_mes character with
    | Some first_mes =>
        if truthy first_mes
        then titles ++ [orElse (extractTitleFromGreeting first_mes) (js "Episode 1")]
        else titles
    | None => titles
    end in
  match Character.alternate_greetings character with
  | GreetingsArray greetings => pushAlternateTitles greetings 0 titles
  | GreetingsAbsent | GreetingsNotArray => titles
  end.

(** ** Construction *)

(** [{ ...this.config, ...data.config }]: a key of [data.config] wins when
    it is there. *)
Definition mergeConfig (base : ConfigType) (c : PartialConfig.t) : ConfigType :=
  {| showEpisodeNumber := default (showEpisodeNumber base) (PartialConfig.showEpisodeNumber c);
     showProgress := default (showProgress base) (PartialConfig.showProgress c);
     buttonText := default (buttonText base) (PartialConfig.buttonText c);
     injectContext := default (injectContext base) (PartialConfig.injectContext c);
     theme := default (theme base) (PartialConfig.theme c) |}.

(** [new Stage(data)]: the field initialisers run, then the body of the
    constructor.  Neither [data.chatState] nor [data.messageState] is read
    outside the log entry. *)
Definition constructor (now : Z) (data : InitialData.t) : Stage :=
  let this := fieldInitializers in
  let this := addDebugLog now (js "constructor") (DataConstructor data) this in
  let this :=
    match InitialData.config data with
    | Some c => setConfig (mergeConfig (config this) c) this
    | None => this
    end in
  match InitialData.characters data with
  | CharactersArray (mainChar :: _) =>
      let this := setCharacterName (orElse (Character.name mainChar) (js "Character")) this in
      let this := setTotalEpisodes 1 this in
      let this :=
        match Character.alternate_greetings mainChar with
        | GreetingsArray greetings =>
            setTotalEpisodes (totalEpisodes this + Z.of_nat (length greetings)) this
        | GreetingsAbsent | GreetingsNotArray => this
        end in
      setEpisodeTitles (extractEpisodeTitles mainChar) this
  | CharactersArray [] | CharactersAbsent | CharactersNotArray => this
  end.

(** ** Construction on untyped input *)

(** How a call ends: with a value, or with a thrown error. *)
Inductive JSError : Type := TypeError.

Inductive Completion (A : Type) : Type :=
  | Normal (a : A)
  | Throw (e : JSError).
Arguments Normal {A} a.
Arguments Throw {A} e.

Definition bind {A B : Type} (c : Completion A) (k : A -> Completion B)
  : Completion B :=
  match c with
  | Normal a => k a
  | Throw e => Throw e
  end.

Notation "'let*' x := c 'in' k" := (bind c (fun x => k))
  (at level 10, x name, c at level 100, k at level 200).

(** [if (v)] on a value found where a greeting is expected. *)
Definition rawTruthy (g : RawGreeting) : bool :=
  match g with
  | RawString s => truthy s
  | RawNullish => false
  | RawNonString b => b
  end.

(** [extractTitleFromGreeting(greeting)] on such a value: the first thing
    the method does with its argument is [greeting.trim()], which throws a
    [TypeError] unless the argument is a string. *)
Definition extractTitleFromRaw (greeting : RawGreeting)
  : Completion (option jsstring) :=
  match greeting with
  | RawString s => Normal (extractTitleFromGreeting s)
  | RawNullish | RawNonString _ => Throw TypeError
  end.

(** The [forEach] over [alternate_greetings]; a throw in the callback ends
    the loop and the constructor. *)
Fixpoint pushAlternateTitlesRaw (greetings : list RawGreeting) (index : nat)
    (titles : list jsstring) : Completion (list jsstring) :=
  match greetings with
  | [] => Normal titles
  | greeting :: rest =>
      let* title := extractTitleFromRaw greeting in
      pushAlternateTitlesRaw rest (S index)
        (titles ++ [orElse title (js "Episode " ++ show (Z.of_nat index + 2))])
  end.

(** [extractEpisodeTitles(character)] *)
Definition extractEpisodeTitlesRaw (character : RawCharacter.t)
  : Completion (list jsstring) :=
  let titles : list jsstring := [] in
  let* titles :=
    (if rawTruthy (RawCharacter.first_mes character)
     then let* title := extractTitleFromRaw (RawCharacter.first_mes character) in
          Normal (titles ++ [orElse title (js "Episode 1")])
     else Normal titles) in
  match RawCharacter.alternate_greetings character with
  | RawGreetingsArray greetings => pushAlternateTitlesRaw greetings 0 titles
  | RawGreetingsAbsent | RawGreetingsNotArray => Normal titles
  end.

(** [new Stage(data)] on untyped input: the same statements as
    [constructor], with the two accesses that can throw. *)
Definition constructorRaw (now : Z) (data : RawInitialData.t) : Completion Stage :=
  let this := fieldInitializers in
  let this := addDebugLog now (js "constructor") (DataConstructorRaw data) this in
  let this :=
    match RawInitialData.config data with
    | Some c => setConfig (mergeConfig (config this) c) this
    | None => this
    end in
  match RawInitialData.characters data with
  | RawCharactersArray (Some mainChar :: _) =>
      let this :=
        setCharacterName (orElse (RawCharacter.name mainChar) (js "Character")) this in
      let this := setTotalEpisodes 1 this in
      let this :=
        match RawCharacter.alternate_greetings mainChar with
        | RawGreetingsArray greetings =>
            setTotalEpisodes (totalEpisodes this + Z.of_nat (length greetings)) this
        | RawGreetingsAbsent | RawGreetingsNotArray => this
        end in
      let* titles := extractEpisodeTitlesRaw mainChar in
      Normal (setEpisodeTitles titles this)
  | RawCharactersArray (None :: _) => Throw TypeError
  | RawCharactersArray [] | RawCharactersAbsent | RawCharactersNotArray => Normal this
  end.

(** Input of the declared types, read as untyped input. *)
Definition rawGreetings (g : Greetings) : RawGreetings :=
  match g with
  | GreetingsAbsent => RawGreetingsAbsent
  | GreetingsNotArray => RawGreetingsNotArray
  | GreetingsArray greetings => RawGreetingsArray (List.map RawString greetings)
  end.

Definition rawCharacter (c : Character.t) : RawCharacter.t :=
  {| RawCharacter.name := Character.name c;
     RawCharacter.first_mes :=
       match Character.first_mes c with
       | Some s => RawString s
       | None => RawNullish
       end;
     RawCharacter.alternate_greetings := rawGreetings (Character.alternate_greetings c) |}.

Definition rawData (data : InitialData.t) : RawInitialData.t :=
  {| RawInitialData.characters :=
       match InitialData.characters data with
       | CharactersAbsent => RawCharactersAbsent
       | CharactersNotArray => RawCharactersNotArray
       | CharactersArray cs => RawCharactersArray (List.map (fun c => Some (rawCharacter c)) cs)
       end;
     RawInitialData.config := InitialData.config data;
     RawInitialData.initState := InitialData.initState data;
     RawInitialData.chatState := InitialData.chatState data;
     RawInitialData.messageState := InitialData.messageState data |}.

(** Every value the constructor reads as a greeting is a string. *)
Definition isString (g : RawGreeting) : bool :=
  match g with
  | RawString _ => true
  | RawNullish | RawNonString _ => false
  end.

Definition readableCharacter (c : option RawCharacter.t) : bool :=
  match c with
  | None => false
  | Some c =>
      (negb (rawTruthy (RawCharacter.first_mes c)) || isString (RawCharacter.first_mes c))
      && match RawCharacter.alternate_greetings c with
         | RawGreetingsArray greetings => forallb isString greetings
         | RawGreetingsAbsent | RawGreetingsNotArray => true
         end
  end.

Definition readable (data : RawInitialData.t) : bool :=
  match RawInitialData.characters data with
  | RawCharactersArray (c :: _) => readableCharacter c
  | RawCharactersArray [] | RawCharactersAbsent | RawCharactersNotArray => true
  end.

(** [Number.isSafeInteger]: the integers on which the arithmetic and the
    decimal rendering of JavaScript numbers are exact. *)
Definition safeInteger (z : Z) : Prop := - (2 ^ 53 - 1) <= z <= 2 ^ 53 - 1.

(** ** Lifecycle hooks *)

Definition currentStateOf (this : Stage) : CurrentState :=
  {| cs_currentEpisode := currentEpisode this;
     cs_totalEpisodes := totalEpisodes this;
     cs_highestEpisodeReached := highestEpisodeReached this;
     cs_completed := completed this |}.

(** [load()] *)
Definition load (now : Z) (this : Stage) : LoadResponse.t * Stage :=
  let response :=
    {| LoadResponse.success := true;
       LoadResponse.error := None;
       LoadResponse.initState :=
         {| InitState.totalEpisodes := totalEpisodes this;
            InitState.characterName := characterName this;
            InitState.episodeTitles := episodeTitles this |};
       LoadResponse.chatState :=
         {| ChatState.highestEpisodeReached := highestEpisodeReached this;
            ChatState.completed := completed this |} |} in
  let this := addDebugLog now (js "load") (DataLoad response) this in
  (response, this).

(** [titles[i]]: [undefined] outside the array. *)
Definition titleAt (titles : list jsstring) (i : Z) : option jsstring :=
  if i <? 0 then None else titles !! Z.to_nat i.

(** [this.episodeTitles[this.currentEpisode] || `Episode ${this.currentEpisode + 1}`] *)
Definition episodeTitle (this : Stage) : jsstring :=
  orElse (titleAt (episodeTitles this) (currentEpisode this))
         (js "Episode " ++ show (currentEpisode this + 1)).

(** The value of [addSystem] when [beforePrompt] builds its response. *)
Definition addSystem (this : Stage) : option jsstring :=
  if injectContext (config this)
  then Some (js "[Chubflix Episode Context: Currently on " ++ episodeTitle this
             ++ js " (" ++ show (currentEpisode this + 1) ++ js "/"
             ++ show (totalEpisodes this)
             ++ js "). Maintain narrative continuity with previous episodes.]")
  else None.

(** [`Episode ${this.currentEpisode + 1}/${this.totalEpisodes}`] *)
Definition stateMessageOf (this : Stage) : jsstring :=
  js "Episode " ++ show (currentEpisode this + 1) ++ js "/" ++ show (totalEpisodes this).

(** [beforePrompt(userMessage)]; [t1], [t2], [t3] are the three readings of
    [Date.now()] in program order. *)
Definition beforePrompt (t1 t2 t3 : Z) (userMessage : Message.t) (this : Stage)
  : StageResponse.t * Stage :=
  let this := addDebugLog t1 (js "beforePrompt")
                (DataTurn userMessage (currentStateOf this)) this in
  let response :=
    {| StageResponse.stateMessage := stateMessageOf this;
       StageResponse.messageState :=
         {| MessageState.currentEpisode := Some (Num (currentEpisode this));
            MessageState.startedAt := t2;
            MessageState.lastEvent := Some (js "beforePrompt");
            MessageState.lastData := Some userMessage |};
       StageResponse.chatState :=
         {| ChatState.highestEpisodeReached :=
              Z.max (highestEpisodeReached this) (currentEpisode this);
            ChatState.completed := completed this |};
       StageResponse.modifiedMessage := None;
       StageResponse.systemMessage := addSystem this |} in
  let this := addDebugLog t3 (js "beforePrompt_response") (DataResponse response) this in
  (response, this).

(** [afterResponse(botMessage)] *)
Definition afterResponse (t1 t2 t3 : Z) (botMessage : Message.t) (this : Stage)
  : StageResponse.t * Stage :=
  let this := addDebugLog t1 (js "afterResponse")
                (DataTurn botMessage (currentStateOf this)) this in
  let response :=
    {| StageResponse.stateMessage := stateMessageOf this;
       StageResponse.messageState :=
         {| MessageState.currentEpisode := Some (Num (currentEpisode this));
            MessageState.startedAt := t2;
            MessageState.lastEvent := Some (js "afterResponse");
            MessageState.lastData := Some botMessage |};
       StageResponse.chatState :=
         {| ChatState.highestEpisodeReached :=
              Z.max (highestEpisodeReached this) (currentEpisode this);
            ChatState.completed := currentEpisode this >=? totalEpisodes this - 1 |};
       StageResponse.modifiedMessage := None;
       StageResponse.systemMessage := None |} in
  let this := addDebugLog t3 (js "afterResponse_response") (DataResponse response) this in
  (response, this).

(** [setState(state)]; [None] is a [null] or [undefined] argument. *)
Definition setState (now : Z) (state : option MessageState.t) (this : Stage) : Stage :=
  let this := addDebugLog now (js "setState")
                (DataSetState state (currentEpisode this)) this in
  match state with
  | Some st => setCurrentEpisode (numOrZero (MessageState.currentEpisode st)) this
  | None => this
  end.

(** ** Navigation buttons *)

(** [goToNextEpisode()] *)
Definition goToNextEpisode (now : Z) (this : Stage) : Stage :=
  if currentEpisode this <? totalEpisodes this - 1 then
    let this := setCurrentEpisode (currentEpisode this + 1) this in
    let this := setHighestEpisodeReached
                  (Z.max (highestEpisodeReached this) (currentEpisode this)) this in
    let this :=
      if currentEpisode this >=? totalEpisodes this - 1
      then setCompleted true this
      else this in
    addDebugLog now (js "goToNextEpisode")
      (DataNext (currentEpisode this) (highestEpisodeReached this) (completed this)) this
  else this.

(** [goToPreviousEpisode()] *)
Definition goToPreviousEpisode (now : Z) (this : Stage) : Stage :=
  if currentEpisode this >? 0 then
    let this := setCurrentEpisode (currentEpisode this - 1) this in
    addDebugLog now (js "goToPreviousEpisode") (DataPrevious (currentEpisode this)) this
  else this.

(** ** Histories of host and user events *)

(** What can happen to a constructed stage: a lifecycle call of the host or
    a click on one of the two buttons, each with the clock readings its
    execution makes. *)
Inductive Event : Type :=
  | EvLoad (now : Z)
  | EvBeforePrompt (t1 t2 t3 : Z) (userMessage : Message.t)
  | EvAfterResponse (t1 t2 t3 : Z) (botMessage : Message.t)
  | EvSetState (now : Z) (state : option MessageState.t)
  | EvNext (now : Z)
  | EvPrevious (now : Z)
  | EvClearDebugLog.

Definition step (this : Stage) (e : Event) : Stage :=
  match e with
  | EvLoad now => snd (load now this)
  | EvBeforePrompt t1 t2 t3 m => snd (beforePrompt t1 t2 t3 m this)
  | EvAfterResponse t1 t2 t3 m => snd (afterResponse t1 t2 t3 m this)
  | EvSetState now st => setState now st this
  | EvNext now => goToNextEpisode now this
  | EvPrevious now => goToPreviousEpisode now this
  | EvClearDebugLog => clearDebugLog this
  end.

Definition run (es : list Event) (this : Stage) : Stage := fold_left step es this.

(** The events of a history made of [advance], [retreat] and turn starts
    only. *)
Definition isNavigation (e : Event) : bool :=
  match e with
  | EvNext _ | EvPrevious _ | EvBeforePrompt _ _ _ _ => true
  | _ => false
  end.

(** The chat snapshot a call of [afterResponse] hands to the host. *)
Definition emittedCompleted (t1 t2 t3 : Z) (m : Message.t) (this : Stage) : bool :=
  ChatState.completed (StageResponse.chatState (fst (afterResponse t1 t2 t3 m this))).

(** The trimmed greeting matches none of the four patterns. *)
Definition matchesNoPattern (greeting : jsstring) : Prop :=
  Regex.boldPattern (trim greeting) = None /\
  Regex.headingPattern (trim greeting) = None /\
  Regex.quotedPattern (trim greeting) = None /\
  Regex.episodePattern (trim greeting) = None.

(** ** Test data *)

(** A greeting made of a lone marker. *)
Definition starCharacter : Character.t :=
  {| Character.name := None;
     Character.first_mes := Some (js "*");
     Character.alternate_greetings := GreetingsArray [] |}.

(** A first line of fifty-two code units without any marker. *)
Definition longGreeting : jsstring :=
  js "It was a dark and stormy night when the story began." ++ LF ++ js "Hi".

(** The host sends [characters: [null]]. *)
Definition nullCharacterData : RawInitialData.t :=
  RawInitialData.mk (RawCharactersArray [None]) None None None None.

(** The host sends a character whose [alternate_greetings] is [[null]]. *)
Definition nullGreetingData : RawInitialData.t :=
  RawInitialData.mk
    (RawCharactersArray
       [Some (RawCharacter.mk (Some (js "Sofia Mendes")) (RawString (js "**Pilot**"))
                (RawGreetingsArray [RawNullish]))])
    None None None None.

(** A character without a name and without greetings. *)
Definition bareCharacter : Character.t :=
  {| Character.name := None;
     Character.first_mes := None;
     Character.alternate_greetings := GreetingsAbsent |}.

Definition someMessage : Message.t :=
  Message.mk (js "Hello") true (js "test-user") (js "User").

Definition pilotCharacter : Character.t :=
  {| Character.name := Some (js "Sofia Mendes");
     Character.first_mes := Some (js "**Pilot**" ++ LF ++ js "Hello");
     Character.alternate_greetings :=
       GreetingsArray [js "**Twist**" ++ LF ++ js "A turn"; js "Goodbye for now"] |}.

Definition dataOf (c : Character.t) : InitialData.t :=
  {| InitialData.characters := CharactersArray [c];
     InitialData.config := None;
     InitialData.initState := None;
     InitialData.chatState := None;
     InitialData.messageState := None |}.

Definition pilotStage : Stage := constructor 0 (dataOf pilotCharacter).

(** Two clicks on Next: the stage sits on the last of the three episodes. *)
Definition finaleStage : Stage := run [EvNext 1; EvNext 2] pilotStage.

(** A turn ends on the finale, then the user clicks Prev. *)
Definition retreatedStage : Stage :=
  run [EvAfterResponse 3 4 5 someMessage; EvPrevious 6] finaleStage.

(** The host restores the turn snapshot of the third episode on a fresh
    stage. *)
Definition jumpedStage : Stage :=
  setState 1 (Some (MessageState.mk (Some (Num 2)) 0 None None)) pilotStage.

(** Text made of whitespace and line terminators only. *)
Definition allSpaces (s : jsstring) : Prop := Forall (fun c => isSpace c = true) s.

(** ** The rest of the class *)

(** [getDebugLog()] *)
Definition getDebugLog (this : Stage) : list DebugLogEntry := debugLog this.

(** [s.startsWith(sub)] at the current position. *)
Fixpoint startsWith (sub s : jsstring) : bool :=
  match sub, s with
  | [], _ => true
  | a :: sub', c :: s' => (a =? c)%N && startsWith sub' s'
  | _ :: _, [] => false
  end.

(** [s.includes(sub)]: [sub] occurs at some position of [s]. *)
Fixpoint includes (s sub : jsstring) : bool :=
  startsWith sub s
  || match s with
     | [] => false
     | _ :: s' => includes s' sub
     end.

(** [getEventColor(event)] *)
Definition getEventColor (ev : jsstring) : jsstring :=
  if includes ev (js "beforePrompt") then js "#4a9eff"
  else if includes ev (js "afterResponse") then js "#4ade80"
  else if includes ev (js "setState") then js "#f59e0b"
  else if includes ev (js "constructor") then js "#a855f7"
  else if includes ev (js "load") then js "#ec4899"
  else if includes ev (js "Episode") then js "#06b6d4"
  else js "#94a3b8".

(** The constants [render()] computes before it builds the element, and
    what its two buttons read from them.  ([progress] is a floating-point
    percentage used for a width only and is left out.) *)
Definition isFirstEpisode (this : Stage) : bool := currentEpisode this =? 0.

Definition isLastEpisode (this : Stage) : bool :=
  currentEpisode this >=? totalEpisodes this - 1.

Definition currentTitle (this : Stage) : jsstring :=
  orElse (titleAt (episodeTitles this) (currentEpisode this))
         (js "Episode " ++ show (currentEpisode this + 1)).

(** The [disabled] attribute of the Prev and of the Next button. *)
Definition previousDisabled (this : Stage) : bool := isFirstEpisode this.
Definition nextDisabled (this : Stage) : bool := isLastEpisode this.

(** The label of the Next button; the arrow is U+2192. *)
Definition nextLabel (this : Stage) : jsstring :=
  if isLastEpisode this then js "Final" else js "Next " ++ [8594%N].

(** Histories without a restore, and histories of Next clicks only. *)
Definition isRestore (e : Event) : bool :=
  match e with
  | EvSetState _ _ => true
  | _ => false
  end.

Definition isNext (e : Event) : bool :=
  match e with
  | EvNext _ => true
  | _ => false
  end.

(** The event names the stage passes to [addDebugLog]. *)
Definition loggedEvents : list jsstring :=
  [js "constructor"; js "load"; js "beforePrompt"; js "beforePrompt_response";
   js "afterResponse"; js "afterResponse_response"; js "setState";
   js "goToNextEpisode"; js "goToPreviousEpisode"].

(** * Properties *)

(** ** The log is the only thing [addDebugLog] writes *)

Section LogFrame.
Variables (now : Z) (ev : jsstring) (d : DebugData) (s : Stage).

Lemma addDebugLog_currentEpisode :
  currentEpisode (addDebugLog now ev d s) = currentEpisode s.
Proof. unfold addDebugLog. by case (_ <? _)%nat. Qed.

Lemma addDebugLog_totalEpisodes :
  totalEpisodes (addDebugLog now ev d s) = totalEpisodes s.
Proof. unfold addDebugLog. by case (_ <? _)%nat. Qed.

Lemma addDebugLog_episodeTitles :
  episodeTitles (addDebugLog now ev d s) = episodeTitles s.
Proof. unfold addDebugLog. by case (_ <? _)%nat. Qed.

Lemma addDebugLog_characterName :
  characterName (addDebugLog now ev d s) = characterName s.
Proof. unfold addDebugLog. by case (_ <? _)%nat. Qed.

Lemma addDebugLog_highestEpisodeReached :
  highestEpisodeReached (addDebugLog now ev d s) = highestEpisodeReached s.
Proof. unfold addDebugLog. by case (_ <? _)%nat. Qed.

Lemma addDebugLog_completed :
  completed (addDebugLog now ev d s) = completed s.
Proof. unfold addDebugLog. by case (_ <? _)%nat. Qed.

Lemma addDebugLog_config :
  config (addDebugLog now ev d s) = config s.
Proof. unfold addDebugLog. by case (_ <? _)%nat. Qed.

(** Pushing an entry keeps the most recent entries: whatever [tail] of
    fewer than fifty entries ended the log still ends it, followed by the
    new entry; only entries older than that can be evicted. *)
Lemma addDebugLog_debugLog (kept tail : list DebugLogEntry) :
  (length tail < 50)%nat ->
  debugLog s = kept ++ tail ->
  exists kept', kept' `suffix_of` kept /\
    debugLog (addDebugLog now ev d s) = kept' ++ tail ++ [mkEntry now ev d].
Proof.
  intros Htail Hlog. unfold addDebugLog. cbn [debugLog setDebugLog].
  destruct (_ <? _)%nat eqn:Hfull; cbn [debugLog setDebugLog].
  - apply Nat.ltb_lt in Hfull. unfold sliceLast.
    rewrite Hlog, <- !(assoc_L (++)) in *. rewrite !length_app in *.
    cbn [length] in *.
    exists (drop (length kept + (length tail + 1) - 50) kept). split.
    + apply suffix_drop.
    + rewrite drop_app_le by lia. reflexivity.
  - exists kept. split; [reflexivity|]. by rewrite Hlog, <- (assoc_L (++)).
Qed.
End LogFrame.

Create Rewrite HintDb stage.
#[local] Hint Rewrite addDebugLog_currentEpisode addDebugLog_totalEpisodes
  addDebugLog_episodeTitles addDebugLog_characterName
  addDebugLog_highestEpisodeReached addDebugLog_completed addDebugLog_config
  : stage.

(** Unfold a hook down to the field it reads. *)
Ltac stage_simpl :=
  repeat (autorewrite with stage;
          cbn [fst snd currentEpisode totalEpisodes episodeTitles characterName
               highestEpisodeReached completed config debugLog
               setCurrentEpisode setTotalEpisodes setEpisodeTitles
               setCharacterName setHighestEpisodeReached setCompleted setConfig
               setDebugLog]).

(** ** Construction *)

Lemma constructor_navigation (now : Z) (data : InitialData.t) :
  currentEpisode (constructor now data) = 0 /\
  highestEpisodeReached (constructor now data) = 0 /\
  completed (constructor now data) = false.
Proof.
  unfold constructor.
  destruct (InitialData.config data),
    (InitialData.characters data) as [| |[|mainChar others]];
    try destruct (Character.alternate_greetings mainChar);
    stage_simpl; auto.
Qed.

(** C3: whatever the host passes to the constructor, previously persisted
    chat and message snapshots included, the stage starts on episode 0 with
    [highestEpisodeReached = 0] and [completed = false]. *)
Theorem constructor_initial_navigation
    (now : Z) (chars : Characters) (cfg : option PartialConfig.t)
    (init : option InitState.t) (chat : option ChatState.t)
    (msg : option MessageState.t) :
  let this := constructor now (InitialData.mk chars cfg init chat msg) in
  currentEpisode this = 0 /\
  highestEpisodeReached this = 0 /\
  completed this = false.
Proof. apply constructor_navigation. Qed.

(** ** Turn hooks *)

(** C10: [afterResponse] writes no field but the log, which receives the
    two entries of the call after a suffix of its former content; the
    snapshots it returns are computed from the fields as they were. *)
Theorem afterResponse_frame (t1 t2 t3 : Z) (botMessage : Message.t) (s : Stage) :
  let r := fst (afterResponse t1 t2 t3 botMessage s) in
  let s' := snd (afterResponse t1 t2 t3 botMessage s) in
  currentEpisode s' = currentEpisode s /\
  highestEpisodeReached s' = highestEpisodeReached s /\
  completed s' = completed s /\
  totalEpisodes s' = totalEpisodes s /\
  episodeTitles s' = episodeTitles s /\
  characterName s' = characterName s /\
  config s' = config s /\
  (exists kept e1 e2,
      kept `suffix_of` debugLog s /\
      debugLog s' = kept ++ [e1; e2] /\
      event e1 = js "afterResponse" /\
      event e2 = js "afterResponse_response") /\
  StageResponse.stateMessage r =
    js "Episode " ++ show (currentEpisode s + 1) ++ js "/" ++ show (totalEpisodes s) /\
  MessageState.currentEpisode (StageResponse.messageState r) =
    Some (Num (currentEpisode s)) /\
  StageResponse.chatState r =
    {| ChatState.highestEpisodeReached :=
         Z.max (highestEpisodeReached s) (currentEpisode s);
       ChatState.completed := currentEpisode s >=? totalEpisodes s - 1 |} /\
  StageResponse.systemMessage r = None.
Proof.
  unfold afterResponse. cbn [fst snd]. stage_simpl.
  repeat (split; [reflexivity|]).
  split; [|unfold stateMessageOf; stage_simpl; auto].
  set (s1 := addDebugLog t1 _ _ s).
  destruct (addDebugLog_debugLog t1 (js "afterResponse")
              (DataTurn botMessage (currentStateOf s)) s (debugLog s) [])
    as (k1 & Hk1 & Hlog1); [cbn; lia | by rewrite (right_id_L [] (++)) |].
  fold s1 in Hlog1. cbn [app] in Hlog1.
  match goal with |- context [addDebugLog t3 ?ev ?d s1] =>
    pose proof (fun Hlen => addDebugLog_debugLog t3 ev d s1 k1 _ Hlen Hlog1) as Hadd
  end.
  destruct Hadd as (k2 & Hk2 & Hlog2); [cbn; lia|].
  eexists k2, _, _. split; [by etrans|]. split; [exact Hlog2|]. by split.
Qed.

(** C2, as the code has it: [beforePrompt] writes no field but the log, so
    [currentEpisode] and the in-memory [highestEpisodeReached] are what they
    were; the high-water mark is raised in the chat snapshot it returns,
    which carries the larger of the two and is therefore at least
    [currentEpisode]. *)
Theorem beforePrompt_frame (t1 t2 t3 : Z) (userMessage : Message.t) (s : Stage) :
  let r := fst (beforePrompt t1 t2 t3 userMessage s) in
  let s' := snd (beforePrompt t1 t2 t3 userMessage s) in
  currentEpisode s' = currentEpisode s /\
  highestEpisodeReached s' = highestEpisodeReached s /\
  completed s' = completed s /\
  totalEpisodes s' = totalEpisodes s /\
  episodeTitles s' = episodeTitles s /\
  ChatState.highestEpisodeReached (StageResponse.chatState r) =
    Z.max (highestEpisodeReached s) (currentEpisode s) /\
  ChatState.highestEpisodeReached (StageResponse.chatState r) >= currentEpisode s'.
Proof.
  unfold beforePrompt. cbn [fst snd]. stage_simpl.
  cbn [StageResponse.chatState ChatState.highestEpisodeReached]. stage_simpl.
  repeat (split; [reflexivity|]). lia.
Qed.

(** C2, as stated, fails after a restore: on the stage that was sent to
    episode 2 by [setState], [beforePrompt] leaves the in-memory
    [highestEpisodeReached] at 0, below [currentEpisode]. *)
Lemma beforePrompt_highest_counterexample :
  ~ (currentEpisode (snd (beforePrompt 2 3 4 someMessage jumpedStage))
       = currentEpisode jumpedStage /\
     highestEpisodeReached (snd (beforePrompt 2 3 4 someMessage jumpedStage))
       >= currentEpisode (snd (beforePrompt 2 3 4 someMessage jumpedStage))).
Proof.
  assert (currentEpisode (snd (beforePrompt 2 3 4 someMessage jumpedStage)) = 2)
    as -> by reflexivity.
  assert (highestEpisodeReached (snd (beforePrompt 2 3 4 someMessage jumpedStage)) = 0)
    as -> by reflexivity.
  lia.
Qed.

(** ** Restore *)

(** C8: a restore that carries a snapshot stores the snapshot's index as it
    is, whatever its range; a missing index or [NaN] gives 0; the high-water
    mark and the completion flag are not written. *)
Theorem setState_restores_index (now : Z) (s : Stage) :
  (forall z t le ld,
      currentEpisode (setState now (Some (MessageState.mk (Some (Num z)) t le ld)) s) = z) /\
  (forall t le ld,
      currentEpisode (setState now (Some (MessageState.mk None t le ld)) s) = 0) /\
  (forall t le ld,
      currentEpisode (setState now (Some (MessageState.mk (Some NaN) t le ld)) s) = 0) /\
  (forall st,
      highestEpisodeReached (setState now (Some st) s) = highestEpisodeReached s /\
      completed (setState now (Some st) s) = completed s /\
      totalEpisodes (setState now (Some st) s) = totalEpisodes s).
Proof.
  unfold setState. repeat split; intros; stage_simpl; try reflexivity.
  cbn. by destruct (Z.eqb_spec z 0).
Qed.

(** ** One event at a time *)

Lemma goToNextEpisode_fields (now : Z) (s : Stage) :
  let s' := goToNextEpisode now s in
  totalEpisodes s' = totalEpisodes s /\
  episodeTitles s' = episodeTitles s /\
  config s' = config s /\
  currentEpisode s' =
    (if currentEpisode s <? totalEpisodes s - 1
     then currentEpisode s + 1 else currentEpisode s) /\
  highestEpisodeReached s' =
    (if currentEpisode s <? totalEpisodes s - 1
     then Z.max (highestEpisodeReached s) (currentEpisode s + 1)
     else highestEpisodeReached s) /\
  completed s' = completed s || (currentEpisode s + 1 =? totalEpisodes s - 1).
Proof.
  unfold goToNextEpisode.
  destruct (Z.ltb_spec (currentEpisode s) (totalEpisodes s - 1)) as [Hlt|Hge];
    stage_simpl.
  - destruct (Z.geb_spec (currentEpisode s + 1) (totalEpisodes s - 1)) as [Hlast|Hmid];
      stage_simpl; repeat (split; [reflexivity|]);
      destruct (Z.eqb_spec (currentEpisode s + 1) (totalEpisodes s - 1));
      rewrite ?orb_true_r, ?orb_false_r; (reflexivity || lia).
  - repeat (split; [reflexivity|]).
    destruct (Z.eqb_spec (currentEpisode s + 1) (totalEpisodes s - 1)); [lia|].
    by rewrite orb_false_r.
Qed.

Lemma goToPreviousEpisode_fields (now : Z) (s : Stage) :
  let s' := goToPreviousEpisode now s in
  totalEpisodes s' = totalEpisodes s /\
  episodeTitles s' = episodeTitles s /\
  config s' = config s /\
  currentEpisode s' =
    (if currentEpisode s >? 0 then currentEpisode s - 1 else currentEpisode s) /\
  highestEpisodeReached s' = highestEpisodeReached s /\
  completed s' = completed s.
Proof.
  unfold goToPreviousEpisode.
  destruct (currentEpisode s >? 0); stage_simpl; auto 10.
Qed.

Lemma step_catalog (s : Stage) (e : Event) :
  totalEpisodes (step s e) = totalEpisodes s /\
  episodeTitles (step s e) = episodeTitles s /\
  config (step s e) = config s.
Proof.
  destruct e as [|? ? ? ?|? ? ? ?|? [st|]| | |]; cbn [step];
    try (unfold load, beforePrompt, afterResponse, setState, clearDebugLog;
         stage_simpl; by auto).
  - destruct (goToNextEpisode_fields now s) as (? & ? & ? & _); auto.
  - destruct (goToPreviousEpisode_fields now s) as (? & ? & ? & _); auto.
Qed.

Lemma step_highest_mono (s : Stage) (e : Event) :
  highestEpisodeReached s <= highestEpisodeReached (step s e).
Proof.
  destruct e as [|? ? ? ?|? ? ? ?|? [st|]| | |]; cbn [step];
    try (unfold load, beforePrompt, afterResponse, setState, clearDebugLog;
         stage_simpl; lia).
  - destruct (goToNextEpisode_fields now s) as (_ & _ & _ & _ & -> & _).
    destruct (_ <? _); lia.
  - destruct (goToPreviousEpisode_fields now s) as (_ & _ & _ & _ & -> & _). lia.
Qed.

Lemma step_completed_sticky (s : Stage) (e : Event) :
  completed s = true -> completed (step s e) = true.
Proof.
  intros Hdone.
  destruct e as [|? ? ? ?|? ? ? ?|? [st|]| | |]; cbn [step];
    try (unfold load, beforePrompt, afterResponse, setState, clearDebugLog;
         stage_simpl; by auto).
  - destruct (goToNextEpisode_fields now s) as (_ & _ & _ & _ & _ & ->).
    by rewrite Hdone.
  - by destruct (goToPreviousEpisode_fields now s) as (_ & _ & _ & _ & _ & ->).
Qed.

Lemma step_in_range (s : Stage) (e : Event) :
  isNavigation e = true ->
  0 <= currentEpisode s <= totalEpisodes s - 1 ->
  0 <= currentEpisode (step s e) <= totalEpisodes s - 1.
Proof.
  intros Hnav Hrange.
  destruct e as [|? ? ? ?|? ? ? ?|? [st|]| | |]; try discriminate Hnav; cbn [step].
  - unfold beforePrompt. by stage_simpl.
  - destruct (goToNextEpisode_fields now s) as (_ & _ & _ & -> & _).
    destruct (Z.ltb_spec (currentEpisode s) (totalEpisodes s - 1)); lia.
  - destruct (goToPreviousEpisode_fields now s) as (_ & _ & _ & -> & _).
    destruct (Z.gtb_spec (currentEpisode s) 0); lia.
Qed.

(** ** Histories *)

Lemma run_snoc (es : list Event) (e : Event) (s : Stage) :
  run (es ++ [e]) s = step (run es s) e.
Proof. unfold run. by rewrite fold_left_app. Qed.

Lemma run_app (es es' : list Event) (s : Stage) :
  run (es ++ es') s = run es' (run es s).
Proof. unfold run. by rewrite fold_left_app. Qed.

Lemma run_catalog (es : list Event) (s : Stage) :
  totalEpisodes (run es s) = totalEpisodes s /\
  episodeTitles (run es s) = episodeTitles s /\
  config (run es s) = config s.
Proof.
  induction es as [|e es IH] using rev_ind; [done|].
  rewrite run_snoc. destruct (step_catalog (run es s) e) as (-> & -> & ->). exact IH.
Qed.

Lemma run_highest_mono (es : list Event) (s : Stage) :
  highestEpisodeReached s <= highestEpisodeReached (run es s).
Proof.
  induction es as [|e es IH] using rev_ind; [cbn; lia|].
  rewrite run_snoc. pose proof (step_highest_mono (run es s) e). lia.
Qed.

Lemma run_completed_sticky (es : list Event) (s : Stage) :
  completed s = true -> completed (run es s) = true.
Proof.
  intros Hdone. induction es as [|e es IH] using rev_ind; [done|].
  rewrite run_snoc. by apply step_completed_sticky.
Qed.

Lemma run_in_range (es : list Event) (s : Stage) :
  forallb isNavigation es = true ->
  0 <= currentEpisode s <= totalEpisodes s - 1 ->
  0 <= currentEpisode (run es s) <= totalEpisodes s - 1.
Proof.
  intros Hnav Hrange. induction es as [|e es IH] using rev_ind; [done|].
  rewrite forallb_app in Hnav. cbn in Hnav.
  apply andb_prop in Hnav as [Hes He]. rewrite andb_true_r in He.
  rewrite run_snoc.
  destruct (run_catalog es s) as (Htotal & _). rewrite <- Htotal.
  apply step_in_range; [done|]. rewrite Htotal. by apply IH.
Qed.

Lemma constructor_totalEpisodes (now : Z) (data : InitialData.t) :
  1 <= totalEpisodes (constructor now data).
Proof.
  unfold constructor.
  destruct (InitialData.config data), (InitialData.characters data) as [| |[|mainChar others]];
    try destruct (Character.alternate_greetings mainChar);
    stage_simpl; unfold fieldInitializers; stage_simpl; lia.
Qed.

(** ** Navigation *)

(** C7: from a freshly constructed stage with [n = totalEpisodes] episodes,
    any history of Next clicks, Prev clicks and turn starts keeps
    [currentEpisode] in [0, n-1]; Next on the last episode and Prev on the
    first return the stage as it is, log included; and
    [highestEpisodeReached] never decreases as a history is extended. *)
Theorem navigation_in_range_and_monotone (now : Z) (data : InitialData.t) :
  let s0 := constructor now data in
  (forall es, forallb isNavigation es = true ->
      0 <= currentEpisode (run es s0) <= totalEpisodes s0 - 1 /\
      totalEpisodes (run es s0) = totalEpisodes s0) /\
  (forall t s, currentEpisode s = totalEpisodes s - 1 -> goToNextEpisode t s = s) /\
  (forall t s, currentEpisode s = 0 -> goToPreviousEpisode t s = s) /\
  (forall es es',
      highestEpisodeReached (run es s0) <= highestEpisodeReached (run (es ++ es') s0)).
Proof.
  cbn zeta. split; [|split; [|split]].
  - intros es Hnav. split; [|apply run_catalog].
    apply run_in_range; [done|].
    pose proof (constructor_totalEpisodes now data).
    destruct (constructor_navigation now data) as (-> & _). lia.
  - intros t s Hlast. unfold goToNextEpisode.
    destruct (Z.ltb_spec (currentEpisode s) (totalEpisodes s - 1)); [lia|done].
  - intros t s Hfirst. unfold goToPreviousEpisode. by rewrite Hfirst.
  - intros es es'. rewrite run_app. apply run_highest_mono.
Qed.

(** A history that exercises both boundaries of the three-episode stage. *)
Lemma navigation_in_range_and_monotone_witness :
  forallb isNavigation
    [EvPrevious 1; EvNext 2; EvNext 3; EvNext 4; EvBeforePrompt 5 6 7 someMessage] = true /\
  0 <= currentEpisode
         (run [EvPrevious 1; EvNext 2; EvNext 3; EvNext 4;
               EvBeforePrompt 5 6 7 someMessage] pilotStage) <= 3 - 1 /\
  currentEpisode finaleStage = totalEpisodes finaleStage - 1 /\
  goToNextEpisode 8 finaleStage = finaleStage /\
  currentEpisode pilotStage = 0 /\
  goToPreviousEpisode 8 pilotStage = pilotStage.
Proof.
  pose proof (navigation_in_range_and_monotone 0 (dataOf pilotCharacter))
    as (Hrange & Hnext & Hprev & _).
  split; [reflexivity|]. split; [|split; [reflexivity|split; [|split; [reflexivity|]]]].
  - apply (Hrange [EvPrevious 1; EvNext 2; EvNext 3; EvNext 4;
                   EvBeforePrompt 5 6 7 someMessage]). reflexivity.
  - apply Hnext. reflexivity.
  - apply Hprev. reflexivity.
Defined.

(** ** Completion *)

(** C1: the code breaks the non-resetting policy on the turn-end path.  On
    the three-episode stage the user clicks Next twice, a turn ends on the
    finale and reports [completed = true]; the user clicks Prev.  On that
    state the in-memory flag is still set, and both [beforePrompt] and
    [load] report it, yet [afterResponse] reports the bare recomputation,
    [false]: not the disjunction of the recomputation with the flag, nor
    with the value the previous turn end reported. *)
Theorem afterResponse_resets_completed :
  currentEpisode retreatedStage = 1 /\
  totalEpisodes retreatedStage = 3 /\
  completed retreatedStage = true /\
  emittedCompleted 3 4 5 someMessage finaleStage = true /\
  ChatState.completed
    (StageResponse.chatState (fst (beforePrompt 7 8 9 someMessage retreatedStage))) = true /\
  ChatState.completed (LoadResponse.chatState (fst (load 7 retreatedStage))) = true /\
  emittedCompleted 7 8 9 someMessage retreatedStage = false /\
  emittedCompleted 7 8 9 someMessage retreatedStage
  <> (currentEpisode retreatedStage >=? totalEpisodes retreatedStage - 1)
     || completed retreatedStage /\
  emittedCompleted 7 8 9 someMessage retreatedStage
  <> (currentEpisode retreatedStage >=? totalEpisodes retreatedStage - 1)
     || emittedCompleted 3 4 5 someMessage finaleStage.
Proof. repeat split; by vm_compute. Qed.

(** ** Title extraction *)

(** The matcher backtracks as the ECMAScript one does.  In the heading
    pattern the greedy [\s+] first takes blank, TAB and LF; the lazy capture
    then runs into a CR, so the matcher gives whitespace back until the
    capture is the TAB in front of the LF. *)
Fact headingPattern_backtracks :
  Regex.headingPattern (js "# " ++ [9%N] ++ LF ++ js "abc" ++ [13%N] ++ js "def")
  = Some [9%N].
Proof. reflexivity. Qed.

(** A heading title may sit on the line after the hash, since [\s] matches
    line terminators. *)
Fact headingPattern_next_line :
  extractTitleFromGreeting (js "#" ++ LF ++ js "Pilot" ++ LF ++ js "Welcome")
  = Some (js "Pilot").
Proof. reflexivity. Qed.

(** The [i] flag covers the word only; blanks around the captured rest are
    trimmed. *)
Fact episodePattern_ignores_case :
  extractTitleFromGreeting (js "  EPISODE 12:   Finale  " ++ LF ++ js "The end")
  = Some (js "Finale").
Proof. reflexivity. Qed.

(** A star inside the bold text defeats the first pattern; the fallback
    then strips every marker of the line. *)
Fact boldPattern_inner_star :
  Regex.boldPattern (js "**a*b**") = None /\
  extractTitleFromGreeting (js "**a*b**") = Some (js "ab").
Proof. split; reflexivity. Qed.

(** Patterns are tried in source order: a bold title wins even when the
    text inside is itself an episode header. *)
Fact firstMatch_precedence :
  extractTitleFromGreeting (js "**Episode 2: Twist**") = Some (js "Episode 2: Twist").
Proof. reflexivity. Qed.

Lemma firstMatch_none (greeting : jsstring) :
  matchesNoPattern greeting -> firstMatch Regex.patterns greeting = None.
Proof.
  intros (Hbold & Hheading & Hquoted & Hepisode).
  cbn [firstMatch Regex.patterns]. by rewrite Hbold, Hheading, Hquoted, Hepisode.
Qed.

(** C5, as the code has it: the four pattern examples give the trimmed
    capture; a greeting that matches no pattern and whose first line (of
    the trimmed text) is non-empty and at most 50 code units long gives that
    line without its markers, trimmed; one whose first line is longer gives
    absence; and so does one whose trimmed text is empty. *)
Theorem extractTitle_patterns_and_fallback :
  extractTitleFromGreeting (js "**Coffee Shop Confession**" ++ LF ++ js "Hi there")
    = Some (js "Coffee Shop Confession") /\
  extractTitleFromGreeting (js "# Pilot" ++ LF ++ js "Welcome") = Some (js "Pilot") /\
  extractTitleFromGreeting ([34%N] ++ js "Runaway" ++ [34%N] ++ LF ++ js "Scene.")
    = Some (js "Runaway") /\
  extractTitleFromGreeting (js "Episode 3: The Reveal") = Some (js "The Reveal") /\
  extractTitleFromGreeting (js "Just a short line of text")
    = Some (js "Just a short line of text") /\
  (forall greeting,
      matchesNoPattern greeting ->
      firstLine (trim greeting) <> [] ->
      (length (firstLine (trim greeting)) <= 50)%nat ->
      extractTitleFromGreeting greeting
      = Some (trim (stripMarkers (firstLine (trim greeting))))) /\
  (forall greeting,
      matchesNoPattern greeting ->
      (50 < length (firstLine (trim greeting)))%nat ->
      extractTitleFromGreeting greeting = None) /\
  (forall greeting,
      matchesNoPattern greeting ->
      firstLine (trim greeting) = [] ->
      extractTitleFromGreeting greeting = None).
Proof.
  do 5 (split; [by vm_compute|]).
  split; [|split]; intros greeting Hnone Hline; [intros Hshort| |];
    unfold extractTitleFromGreeting; rewrite (firstMatch_none _ Hnone).
  - destruct (firstLine (trim greeting)) as [|c line] eqn:Heq; [done|].
    cbn [truthy andb]. by destruct (Nat.leb_spec (length (c :: line)) 50); [|lia].
  - destruct (Nat.leb_spec (length (firstLine (trim greeting))) 50); [lia|].
    by rewrite andb_false_r.
  - by rewrite Hline.
Qed.

Lemma extractTitle_patterns_and_fallback_witness :
  (matchesNoPattern (js "  Hello *world* ") /\
   firstLine (trim (js "  Hello *world* ")) <> [] /\
   (length (firstLine (trim (js "  Hello *world* "))) <= 50)%nat /\
   extractTitleFromGreeting (js "  Hello *world* ") = Some (js "Hello world")) /\
  (matchesNoPattern longGreeting /\
   (50 < length (firstLine (trim longGreeting)))%nat /\
   extractTitleFromGreeting longGreeting = None) /\
  (matchesNoPattern (js "   ") /\
   firstLine (trim (js "   ")) = [] /\
   extractTitleFromGreeting (js "   ") = None).
Proof.
  pose proof extractTitle_patterns_and_fallback
    as (_ & _ & _ & _ & _ & Hshort & Hlong & Hblank).
  split; [|split].
  - assert (matchesNoPattern (js "  Hello *world* ")) as Hnone
      by (repeat split; reflexivity).
    assert (firstLine (trim (js "  Hello *world* ")) <> []) as Hline
      by (vm_compute; discriminate).
    assert (length (firstLine (trim (js "  Hello *world* "))) <= 50)%nat as Hlen
      by (vm_compute; lia).
    split; [exact Hnone|]. split; [exact Hline|]. split; [exact Hlen|].
    exact (Hshort _ Hnone Hline Hlen).
  - assert (matchesNoPattern longGreeting) as Hnone by (repeat split; reflexivity).
    assert (50 < length (firstLine (trim longGreeting)))%nat as Hlen
      by (vm_compute; lia).
    split; [exact Hnone|]. split; [exact Hlen|]. exact (Hlong _ Hnone Hlen).
  - assert (matchesNoPattern (js "   ")) as Hnone by (repeat split; reflexivity).
    split; [exact Hnone|]. split; [reflexivity|]. exact (Hblank _ Hnone eq_refl).
Defined.

(** C5, as stated, fails on a greeting of blanks: it matches no pattern and
    its trimmed first line is empty, hence at most 50 long, yet the result
    is absence, not the empty title. *)
Lemma extractTitle_blank_counterexample :
  ~ (matchesNoPattern (js "   ") ->
     (length (firstLine (trim (js "   "))) <= 50)%nat ->
     extractTitleFromGreeting (js "   ")
     = Some (trim (stripMarkers (firstLine (trim (js "   ")))))).
Proof.
  intros Hclaim.
  assert (extractTitleFromGreeting (js "   ") = None) as Hnone by reflexivity.
  rewrite Hnone in Hclaim.
  discriminate Hclaim; [repeat split; reflexivity | vm_compute; lia].
Qed.

(** ** Catalog *)

(** The title pushed for the alternate greeting at position [index]. *)
Lemma pushAlternateTitles_length (greetings : list jsstring) :
  forall index titles,
    length (pushAlternateTitles greetings index titles)
    = (length titles + length greetings)%nat.
Proof.
  induction greetings as [|greeting rest IH]; intros index titles; cbn.
  - lia.
  - rewrite IH, length_app. cbn. lia.
Qed.

Lemma pushAlternateTitles_old (greetings : list jsstring) :
  forall index titles k,
    (k < length titles)%nat ->
    pushAlternateTitles greetings index titles !! k = titles !! k.
Proof.
  induction greetings as [|greeting rest IH]; intros index titles k Hk; cbn; [done|].
  rewrite IH by (rewrite length_app; cbn; lia). by apply lookup_app_l.
Qed.

Lemma pushAlternateTitles_new (greetings : list jsstring) :
  forall index titles k greeting,
    greetings !! k = Some greeting ->
    pushAlternateTitles greetings index titles !! (length titles + k)%nat
    = Some (orElse (extractTitleFromGreeting greeting)
                   (js "Episode " ++ show (Z.of_nat (index + k) + 2))).
Proof.
  induction greetings as [|g rest IH]; intros index titles k greeting Hk; [done|].
  cbn [pushAlternateTitles]. destruct k as [|k]; cbn in Hk.
  - injection Hk as ->.
    rewrite pushAlternateTitles_old by (rewrite length_app; cbn; lia).
    rewrite !Nat.add_0_r, lookup_app_r, Nat.sub_diag by lia. done.
  - specialize (IH (S index) (titles ++ [orElse (extractTitleFromGreeting g)
                     (js "Episode " ++ show (Z.of_nat index + 2))]) k greeting Hk).
    rewrite length_app in IH. cbn [length] in IH.
    replace (length titles + 1 + k)%nat with (length titles + S k)%nat in IH by lia.
    replace (S index + k)%nat with (index + S k)%nat in IH by lia.
    exact IH.
Qed.

Lemma orElse_truthy (x : option jsstring) (d : jsstring) :
  truthy d = true -> truthy (orElse x d) = true.
Proof. intros Hd. unfold orElse. destruct x as [t|]; [|done]. by destruct (truthy t) eqn:?. Qed.

Lemma pushAlternateTitles_truthy (greetings : list jsstring) :
  forall index titles,
    Forall (fun t => truthy t = true) titles ->
    Forall (fun t => truthy t = true) (pushAlternateTitles greetings index titles).
Proof.
  induction greetings as [|g rest IH]; intros index titles Htitles; cbn; [done|].
  apply IH, Forall_app. split; [done|]. constructor; [|done]. by apply orElse_truthy.
Qed.

Lemma extractEpisodeTitles_truthy (character : Character.t) :
  Forall (fun t => truthy t = true) (extractEpisodeTitles character).
Proof.
  unfold extractEpisodeTitles.
  assert (Forall (fun t => truthy t = true)
            match Character.first_mes character with
            | Some first_mes =>
                if truthy first_mes
                then [] ++ [orElse (extractTitleFromGreeting first_mes) (js "Episode 1")]
                else []
            | None => []
            end) as Hfirst.
  { destruct (Character.first_mes character) as [g|]; [|done].
    destruct (truthy g); [|done]. constructor; [|done]. by apply orElse_truthy. }
  destruct (Character.alternate_greetings character); try done.
  by apply pushAlternateTitles_truthy.
Qed.

(** C4, as the code has it: for a character with a non-empty primary
    greeting and an array of alternate greetings, the catalog has one title
    per greeting, in input order, and the stage counts as many episodes;
    each title is the extracted one, replaced by the positional default
    when extraction reports absence or extracts the empty string. *)
Theorem extractEpisodeTitles_catalog
    (nm : option jsstring) (first_mes : jsstring) (greetings : list jsstring) :
  first_mes <> [] ->
  let character := Character.mk nm (Some first_mes) (GreetingsArray greetings) in
  let titles := extractEpisodeTitles character in
  length titles = (1 + length greetings)%nat /\
  titles !! 0%nat = Some (orElse (extractTitleFromGreeting first_mes) (js "Episode 1")) /\
  (forall i greeting,
      greetings !! i = Some greeting ->
      titles !! (i + 1)%nat
      = Some (orElse (extractTitleFromGreeting greeting)
                     (js "Episode " ++ show (Z.of_nat i + 2)))) /\
  (forall now others cfg init chat msg,
      let this := constructor now
                    (InitialData.mk (CharactersArray (character :: others))
                       cfg init chat msg) in
      episodeTitles this = titles /\
      totalEpisodes this = Z.of_nat (length titles)).
Proof.
  intros Hfirst. cbn zeta. unfold extractEpisodeTitles.
  cbn [Character.first_mes Character.alternate_greetings].
  destruct first_mes as [|c first_mes]; [done|]. cbn [truthy app].
  set (primary := orElse _ (js "Episode 1")).
  assert (length (pushAlternateTitles greetings 0 [primary])
          = (1 + length greetings)%nat) as Hlen
    by (by rewrite pushAlternateTitles_length).
  split; [exact Hlen|]. split; [|split].
  - by rewrite pushAlternateTitles_old by (cbn; lia).
  - intros i greeting Hi.
    rewrite (Nat.add_comm i 1).
    exact (pushAlternateTitles_new greetings 0 [primary] i greeting Hi).
  - intros now others cfg init chat msg. unfold constructor.
    cbn [InitialData.config InitialData.characters Character.alternate_greetings
         Character.name].
    destruct cfg; stage_simpl; (split; [reflexivity|]);
      unfold extractEpisodeTitles;
      cbn [Character.first_mes Character.alternate_greetings truthy app];
      fold primary; rewrite Hlen; lia.
Qed.

Lemma extractEpisodeTitles_catalog_witness :
  js "**Pilot**" ++ LF ++ js "Hello" <> [] /\
  extractEpisodeTitles pilotCharacter = [js "Pilot"; js "Twist"; js "Goodbye for now"] /\
  extractEpisodeTitles pilotCharacter !! 2%nat
  = Some (orElse (extractTitleFromGreeting (js "Goodbye for now"))
                 (js "Episode " ++ show 3)).
Proof.
  split; [discriminate|]. split; [reflexivity|].
  refine (proj1 (proj2 (proj2
            (extractEpisodeTitles_catalog (Some (js "Sofia Mendes"))
               (js "**Pilot**" ++ LF ++ js "Hello")
               [js "**Twist**" ++ LF ++ js "A turn"; js "Goodbye for now"] _)))
            1%nat (js "Goodbye for now") eq_refl).
  discriminate.
Defined.

(** C4, as stated, fails on a primary greeting made of a lone star: the
    extraction does not report absence, it returns the empty string, and the
    catalog entry is the positional default all the same. *)
Lemma extractEpisodeTitles_star_counterexample :
  extractTitleFromGreeting (js "*") = Some [] /\
  ~ (extractEpisodeTitles starCharacter !! 0%nat
     = Some (default (js "Episode 1") (extractTitleFromGreeting (js "*")))).
Proof. split; [reflexivity|]. vm_compute. discriminate. Qed.

(** ** Context injection *)

Lemma titleAt_truthy (titles : list jsstring) (i : Z) (t : jsstring) :
  Forall (fun t => truthy t = true) titles ->
  titleAt titles i = Some t -> truthy t = true.
Proof.
  intros Htitles. unfold titleAt. destruct (i <? 0); [done|].
  intros Hi. by apply (Forall_lookup_1 _ _ _ _ Htitles Hi).
Qed.

(** On a catalog without empty titles, the [||] of [episodeTitle] falls
    back exactly when the entry is missing. *)
Lemma episodeTitle_missing (s : Stage) :
  Forall (fun t => truthy t = true) (episodeTitles s) ->
  episodeTitle s
  = default (js "Episode " ++ show (currentEpisode s + 1))
      (titleAt (episodeTitles s) (currentEpisode s)).
Proof.
  intros Htitles. unfold episodeTitle, orElse.
  destruct (titleAt _ _) as [t|] eqn:Ht; [|done].
  by rewrite (titleAt_truthy _ _ _ Htitles Ht).
Qed.

Lemma constructor_titles_truthy (now : Z) (data : InitialData.t) :
  Forall (fun t => truthy t = true) (episodeTitles (constructor now data)).
Proof.
  unfold constructor.
  destruct (InitialData.config data),
    (InitialData.characters data) as [| |[|mainChar others]];
    stage_simpl; try apply extractEpisodeTitles_truthy; by constructor.
Qed.

Lemma run_titles_truthy (now : Z) (data : InitialData.t) (es : list Event) :
  Forall (fun t => truthy t = true) (episodeTitles (run es (constructor now data))).
Proof.
  destruct (run_catalog es (constructor now data)) as (_ & -> & _).
  apply constructor_titles_truthy.
Qed.

(** C6: for every stage whose catalog holds no empty title, which is the
    case in every state a constructed stage can reach, and whose index and
    episode count are safe integers, the system message of [beforePrompt]
    is absent when [injectContext] is off and otherwise the context sentence
    built from the catalog title at [currentEpisode] (the positional default
    when the catalog has no entry there), the one-based index and the
    episode count; on the first episode of the three-episode Pilot catalog
    it is the sentence quoted by the specification. *)
Theorem beforePrompt_system_message :
  (forall s t1 t2 t3 m,
      Forall (fun t => truthy t = true) (episodeTitles s) ->
      safeInteger (currentEpisode s) ->
      safeInteger (totalEpisodes s) ->
      let title :=
        default (js "Episode " ++ show (currentEpisode s + 1))
          (titleAt (episodeTitles s) (currentEpisode s)) in
      StageResponse.systemMessage (fst (beforePrompt t1 t2 t3 m s))
      = if injectContext (config s)
        then Some (js "[Chubflix Episode Context: Currently on " ++ title
                   ++ js " (" ++ show (currentEpisode s + 1) ++ js "/"
                   ++ show (totalEpisodes s)
                   ++ js "). Maintain narrative continuity with previous episodes.]")
        else None) /\
  (forall now data es,
      Forall (fun t => truthy t = true) (episodeTitles (run es (constructor now data)))) /\
  episodeTitles pilotStage = [js "Pilot"; js "Twist"; js "Goodbye for now"] /\
  currentEpisode pilotStage = 0 /\
  injectContext (config pilotStage) = true /\
  StageResponse.systemMessage (fst (beforePrompt 1 2 3 someMessage pilotStage))
  = Some (js "[Chubflix Episode Context: Currently on Pilot (1/3). Maintain narrative continuity with previous episodes.]").
Proof.
  split; [|split; [apply run_titles_truthy | by vm_compute]].
  intros s t1 t2 t3 m Htitles _ _ title.
  unfold beforePrompt. cbn [fst StageResponse.systemMessage].
  unfold addSystem. stage_simpl.
  destruct (injectContext (config s)); [|done].
  assert (episodeTitle (addDebugLog t1 (js "beforePrompt")
                          (DataTurn m (currentStateOf s)) s) = title) as ->; [|done].
  rewrite episodeTitle_missing; by stage_simpl.
Qed.

(** The stage restored to an index outside the catalog: the title is the
    positional default. *)
Lemma beforePrompt_system_message_witness :
  Forall (fun t => truthy t = true)
    (episodeTitles (setState 1 (Some (MessageState.mk (Some (Num 7)) 0 None None))
                      pilotStage)) /\
  safeInteger
    (currentEpisode (setState 1 (Some (MessageState.mk (Some (Num 7)) 0 None None))
                       pilotStage)) /\
  safeInteger
    (totalEpisodes (setState 1 (Some (MessageState.mk (Some (Num 7)) 0 None None))
                      pilotStage)) /\
  StageResponse.systemMessage
    (fst (beforePrompt 2 3 4 someMessage
            (setState 1 (Some (MessageState.mk (Some (Num 7)) 0 None None)) pilotStage)))
  = Some (js "[Chubflix Episode Context: Currently on Episode 8 (8/3). Maintain narrative continuity with previous episodes.]").
Proof.
  assert (Forall (fun t => truthy t = true)
            (episodeTitles (setState 1 (Some (MessageState.mk (Some (Num 7)) 0 None None))
                              pilotStage))) as Htitles
    by (repeat constructor).
  assert (safeInteger
            (currentEpisode (setState 1 (Some (MessageState.mk (Some (Num 7)) 0 None None))
                               pilotStage))) as Hcur
    by (vm_compute; split; discriminate).
  assert (safeInteger
            (totalEpisodes (setState 1 (Some (MessageState.mk (Some (Num 7)) 0 None None))
                              pilotStage))) as Htotal
    by (vm_compute; split; discriminate).
  split; [exact Htitles|]. split; [exact Hcur|]. split; [exact Htotal|].
  exact (proj1 beforePrompt_system_message _ 2 3 4 someMessage Htitles Hcur Htotal).
Defined.

(** ** Degraded construction input *)

Lemma pushAlternateTitlesRaw_strings (greetings : list jsstring) :
  forall index titles,
    pushAlternateTitlesRaw (List.map RawString greetings) index titles
    = Normal (pushAlternateTitles greetings index titles).
Proof.
  induction greetings as [|g rest IH]; intros index titles; cbn; [done|]. apply IH.
Qed.

Lemma pushAlternateTitlesRaw_completes (greetings : list RawGreeting) :
  forall index titles,
    if forallb isString greetings
    then exists titles', pushAlternateTitlesRaw greetings index titles = Normal titles'
    else pushAlternateTitlesRaw greetings index titles = Throw TypeError.
Proof.
  induction greetings as [|g rest IH]; intros index titles; cbn; [by eexists|].
  destruct g as [s| |b]; cbn; [apply IH|done..].
Qed.

(** On input of the declared types the untyped constructor is the typed
    one, up to the way the logged copy of the input is tagged. *)
Lemma constructorRaw_typed (now : Z) (data : InitialData.t) :
  exists this,
    constructorRaw now (rawData data) = Normal this /\
    clearDebugLog this = clearDebugLog (constructor now data).
Proof.
  unfold constructorRaw, constructor, rawData.
  cbn [RawInitialData.config RawInitialData.characters].
  destruct (InitialData.characters data) as [| |[|mainChar others]];
    cbn [List.map]; try (eexists; split; [reflexivity|];
                         destruct (InitialData.config data); by cbn).
  unfold extractEpisodeTitlesRaw, extractEpisodeTitles, rawCharacter.
  cbn [RawCharacter.name RawCharacter.first_mes RawCharacter.alternate_greetings].
  destruct (Character.first_mes mainChar) as [first_mes|];
    cbn [rawTruthy extractTitleFromRaw bind];
    try destruct (truthy first_mes); cbn [bind];
    destruct (Character.alternate_greetings mainChar) as [| |greetings];
    cbn [rawGreetings bind]; rewrite ?pushAlternateTitlesRaw_strings; cbn [bind];
    (eexists; split; [reflexivity|]);
    destruct (InitialData.config data); unfold clearDebugLog; stage_simpl;
    unfold addDebugLog; cbn; by rewrite ?length_map.
Qed.




(** * Further properties of the code *)

(** ** Trimming *)

Lemma trimStart_split (s : jsstring) :
  exists sp, s = sp ++ trimStart s /\ allSpaces sp.
Proof.
  induction s as [|c s (sp & Heq & Hsp)]; cbn.
  - exists []. split; [done | constructor].
  - destruct (isSpace c) eqn:Hc.
    + exists (c :: sp). split; [cbn; by rewrite <- Heq | by constructor].
    + exists []. split; [done | constructor].
Qed.

Lemma trimStart_head (s : jsstring) (c : N) (r : jsstring) :
  trimStart s = c :: r -> isSpace c = false.
Proof.
  induction s as [|a s IH]; cbn; [done|].
  destruct (isSpace a) eqn:Ha; [done|]. by intros [= <- _].
Qed.

Lemma trimStart_fixed (c : N) (r : jsstring) :
  isSpace c = false -> trimStart (c :: r) = c :: r.
Proof. intros Hc. cbn. by rewrite Hc. Qed.

Lemma trimStart_idem (s : jsstring) : trimStart (trimStart s) = trimStart s.
Proof.
  destruct (trimStart s) as [|c r] eqn:Hs; [done|].
  apply trimStart_fixed. by apply trimStart_head in Hs.
Qed.

Lemma trimStart_spaces (sp s : jsstring) :
  allSpaces sp -> trimStart (sp ++ s) = trimStart s.
Proof.
  unfold allSpaces. induction 1 as [|c sp Hc _ IH]; cbn; [done|]. by rewrite Hc.
Qed.

Lemma trimStart_app_nonspace (l1 : jsstring) (c : N) (l2 : jsstring) :
  isSpace c = false -> trimStart (l1 ++ c :: l2) = trimStart l1 ++ c :: l2.
Proof.
  intros Hc. induction l1 as [|a l1 IH]; cbn; [by rewrite Hc|].
  by destruct (isSpace a).
Qed.

Lemma trimEnd_spaces (s sp : jsstring) :
  allSpaces sp -> trimEnd (s ++ sp) = trimEnd s.
Proof.
  intros Hsp. unfold trimEnd. rewrite rev_app_distr, trimStart_spaces; [done|].
  by apply Forall_rev.
Qed.

Lemma trimEnd_app_nonspace (l1 : jsstring) (c : N) (l2 : jsstring) :
  isSpace c = false -> trimEnd (l1 ++ c :: l2) = l1 ++ c :: trimEnd l2.
Proof.
  intros Hc. unfold trimEnd. rewrite rev_app_distr. cbn [rev].
  rewrite <- (assoc_L (++)). cbn [app].
  rewrite trimStart_app_nonspace by done.
  rewrite rev_app_distr. cbn [rev]. rewrite rev_involutive.
  by rewrite <- (assoc_L (++)).
Qed.

Lemma trimEnd_cons_nonspace (c : N) (r : jsstring) :
  isSpace c = false -> trimEnd (c :: r) = c :: trimEnd r.
Proof. intros Hc. exact (trimEnd_app_nonspace [] c r Hc). Qed.

Lemma trimEnd_idem (s : jsstring) : trimEnd (trimEnd s) = trimEnd s.
Proof. unfold trimEnd. by rewrite rev_involutive, trimStart_idem. Qed.

Lemma trim_idempotent (s : jsstring) : trim (trim s) = trim s.
Proof.
  unfold trim. destruct (trimStart s) as [|c r] eqn:Hs; [done|].
  pose proof (trimStart_head _ _ _ Hs) as Hc.
  rewrite (trimEnd_cons_nonspace c r Hc).
  rewrite (trimStart_fixed _ _ Hc), (trimEnd_cons_nonspace c _ Hc).
  by rewrite trimEnd_idem.
Qed.

Lemma trim_outer_spaces (pre s post : jsstring) :
  allSpaces pre -> allSpaces post -> trim (pre ++ s ++ post) = trim s.
Proof.
  intros Hpre Hpost. unfold trim. rewrite (trimStart_spaces pre) by done.
  destruct (trimStart_split s) as (sp & Heq & Hsp).
  destruct (trimStart s) as [|c r] eqn:Hs.
  - rewrite Heq, app_nil_r, trimStart_spaces by done.
    by rewrite <- (app_nil_r post), trimStart_spaces.
  - pose proof (trimStart_head _ _ _ Hs) as Hc.
    rewrite Heq, <- (assoc_L (++)), trimStart_spaces by done.
    cbn [app]. rewrite (trimStart_fixed _ _ Hc).
    change (c :: r ++ post) with ((c :: r) ++ post).
    by rewrite (trimEnd_spaces (c :: r) post).
Qed.

Lemma last_rev_head {A : Type} (l : list A) : last (rev l) = head l.
Proof. destruct l as [|a l]; [done|]. cbn [rev]. by rewrite last_snoc. Qed.

Lemma trim_ends (s : jsstring) (c : N) :
  head (trim s) = Some c \/ last (trim s) = Some c -> isSpace c = false.
Proof.
  unfold trim. intros [Hhead|Hlast].
  - destruct (trimStart s) as [|a r] eqn:Hs; [done|].
    pose proof (trimStart_head _ _ _ Hs) as Ha.
    rewrite (trimEnd_cons_nonspace a r Ha) in Hhead. by injection Hhead as <-.
  - unfold trimEnd in Hlast. rewrite last_rev_head in Hlast.
    destruct (trimStart (rev (trimStart s))) as [|a r] eqn:Hs; [done|].
    injection Hlast as <-. by apply trimStart_head in Hs.
Qed.

Lemma trimStart_Forall (P : N -> Prop) (s : jsstring) :
  Forall P s -> Forall P (trimStart s).
Proof.
  destruct (trimStart_split s) as (sp & Heq & _). intros Hs.
  rewrite Heq in Hs. by apply Forall_app in Hs as [_ ?].
Qed.

Lemma trim_Forall (P : N -> Prop) (s : jsstring) :
  Forall P s -> Forall P (trim s).
Proof.
  intros Hs. unfold trim, trimEnd.
  by apply Forall_rev, trimStart_Forall, Forall_rev, trimStart_Forall.
Qed.

Lemma trimStart_length (s : jsstring) : (length (trimStart s) <= length s)%nat.
Proof.
  destruct (trimStart_split s) as (sp & Heq & _).
  rewrite Heq at 2. rewrite length_app. lia.
Qed.

Lemma trim_length (s : jsstring) : (length (trim s) <= length s)%nat.
Proof.
  unfold trim, trimEnd. rewrite length_rev.
  pose proof (trimStart_length (rev (trimStart s))) as H1.
  rewrite length_rev in H1. pose proof (trimStart_length s). lia.
Qed.

(** ** What a title can look like *)

Lemma firstMatch_trim (ps : list (jsstring -> option jsstring)) (g1 g2 : jsstring) :
  trim g1 = trim g2 -> firstMatch ps g1 = firstMatch ps g2.
Proof. intros Heq. induction ps as [|p ps IH]; cbn; [done|]. by rewrite Heq, IH. Qed.

Lemma extractTitle_trim (g1 g2 : jsstring) :
  trim g1 = trim g2 -> extractTitleFromGreeting g1 = extractTitleFromGreeting g2.
Proof.
  intros Heq. unfold extractTitleFromGreeting.
  by rewrite (firstMatch_trim _ g1 g2 Heq), Heq.
Qed.

Lemma firstMatch_is_trim (ps : list (jsstring -> option jsstring)) (g t : jsstring) :
  firstMatch ps g = Some t -> exists cap, t = trim cap.
Proof.
  induction ps as [|p ps IH]; cbn; [done|].
  destruct (p (trim g)) as [cap|]; [|done]. intros [= <-]. by exists cap.
Qed.

Lemma extractTitle_is_trim (g t : jsstring) :
  extractTitleFromGreeting g = Some t -> exists x, t = trim x.
Proof.
  unfold extractTitleFromGreeting.
  destruct (firstMatch Regex.patterns g) as [t'|] eqn:Hm.
  - intros [= <-]. by apply firstMatch_is_trim in Hm.
  - destruct (_ && _); [|done]. intros [= <-]. by eexists.
Qed.

(** X1: Whitespace around a greeting never changes its title: the extraction
    only looks at the trimmed text. *)
Theorem extractTitle_ignores_outer_whitespace (pre greeting post : jsstring) :
  allSpaces pre -> allSpaces post ->
  extractTitleFromGreeting (pre ++ greeting ++ post)
  = extractTitleFromGreeting greeting.
Proof. intros Hpre Hpost. by apply extractTitle_trim, trim_outer_spaces. Qed.

Lemma extractTitle_ignores_outer_whitespace_witness :
  allSpaces (LF ++ js "  ") /\ allSpaces (js " " ++ LF) /\
  extractTitleFromGreeting ((LF ++ js "  ") ++ js "# Pilot" ++ js " " ++ LF)
  = extractTitleFromGreeting (js "# Pilot").
Proof.
  assert (allSpaces (LF ++ js "  ")) as Hpre by (repeat constructor).
  assert (allSpaces (js " " ++ LF)) as Hpost by (repeat constructor).
  split; [exact Hpre|]. split; [exact Hpost|].
  exact (extractTitle_ignores_outer_whitespace _ (js "# Pilot") _ Hpre Hpost).
Defined.

(** X2: A title never starts or ends with whitespace, whichever pattern or
    fallback produced it; trimming it again changes nothing. *)
Theorem extractTitle_is_trimmed (greeting title : jsstring) :
  extractTitleFromGreeting greeting = Some title ->
  trim title = title /\
  (forall c, head title = Some c \/ last title = Some c -> isSpace c = false).
Proof.
  intros (x & ->)%extractTitle_is_trim. split; [apply trim_idempotent|].
  intros c. apply trim_ends.
Qed.

Lemma extractTitle_is_trimmed_witness :
  extractTitleFromGreeting (js "Episode 3:   The Reveal  ") = Some (js "The Reveal") /\
  trim (js "The Reveal") = js "The Reveal".
Proof.
  split; [reflexivity|].
  exact (proj1 (extractTitle_is_trimmed (js "Episode 3:   The Reveal  ")
                  (js "The Reveal") eq_refl)).
Defined.

Lemma firstLine_no_LF (s : jsstring) : Forall (fun c => c <> 10%N) (firstLine s).
Proof.
  induction s as [|c s IH]; cbn; [done|].
  destruct (N.eqb_spec c 10); by constructor.
Qed.

Lemma firstLine_length (s : jsstring) : (length (firstLine s) <= length s)%nat.
Proof.
  induction s as [|c s IH]; cbn; [done|]. destruct (c =? 10)%N; cbn; lia.
Qed.

Lemma stripMarkers_spec (P : N -> Prop) (s : jsstring) :
  Forall P s ->
  Forall (fun c => P c /\ isMarker c = false) (stripMarkers s) /\
  (length (stripMarkers s) <= length s)%nat.
Proof.
  unfold stripMarkers. induction 1 as [|c s Hc _ [IH1 IH2]]; cbn; [done|].
  destruct (isMarker c) eqn:Hm; cbn; split; try lia; try done. by constructor.
Qed.

(** X3: The fallback title is short and clean: when no pattern matches, the
    title has at most 50 code units and contains no star, hash, double
    quote or line feed. *)
Theorem extractTitle_fallback_shape (greeting title : jsstring) :
  matchesNoPattern greeting ->
  extractTitleFromGreeting greeting = Some title ->
  (length title <= 50)%nat /\
  Forall (fun c => isMarker c = false /\ c <> 10%N) title.
Proof.
  intros Hnone. unfold extractTitleFromGreeting. rewrite (firstMatch_none _ Hnone).
  destruct (truthy _ && _) eqn:Hguard; [|done]. intros [= <-].
  apply andb_prop in Hguard as [_ Hlen%Nat.leb_le].
  destruct (stripMarkers_spec _ _ (firstLine_no_LF (trim greeting))) as [Hclean Hshort].
  split.
  - pose proof (trim_length (stripMarkers (firstLine (trim greeting)))). lia.
  - apply trim_Forall. eapply Forall_impl; [exact Hclean|]. by intros c [? ?].
Qed.

Lemma extractTitle_fallback_shape_witness :
  matchesNoPattern (js "  Hello *world* ") /\
  extractTitleFromGreeting (js "  Hello *world* ") = Some (js "Hello world") /\
  (length (js "Hello world") <= 50)%nat.
Proof.
  assert (matchesNoPattern (js "  Hello *world* ")) as Hnone
    by (repeat split; reflexivity).
  split; [exact Hnone|]. split; [reflexivity|].
  exact (proj1 (extractTitle_fallback_shape _ _ Hnone eq_refl)).
Defined.

(** ** What the matcher accepts *)

Section Matcher.
Context {A : Type}.
Implicit Types (k : jsstring -> jsstring -> option A) (cls : N -> bool).

Lemma literal_sound (eqc : N -> N -> bool) (p s : jsstring)
    (k : jsstring -> option A) (a : A) :
  Regex.literal eqc p s k = Some a ->
  exists w r, s = w ++ r /\ Forall2 (fun x c => eqc x c = true) p w /\ k r = Some a.
Proof.
  revert s. induction p as [|x p IH]; intros s; cbn.
  - intros Hk. exists [], s. by repeat split.
  - destruct s as [|c s]; [done|]. destruct (eqc x c) eqn:Hc; [|done].
    intros (w & r & -> & Hw & Hk)%IH. exists (c :: w), r. repeat split; [|done].
    by constructor.
Qed.

Lemma literal_exact_sound (p s : jsstring) (k : jsstring -> option A) (a : A) :
  Regex.literal N.eqb p s k = Some a -> exists r, s = p ++ r /\ k r = Some a.
Proof.
  intros (w & r & -> & Hw & Hk)%literal_sound. exists r. split; [|done].
  f_equal. induction Hw as [|x c p w Hc%N.eqb_eq _ IH]; [done|]. by rewrite Hc, IH.
Qed.

Lemma literal_exact_complete (p r : jsstring) (k : jsstring -> option A) :
  Regex.literal N.eqb p (p ++ r) k = k r.
Proof. induction p as [|x p IH]; cbn; [done|]. by rewrite N.eqb_refl. Qed.

Lemma greedyPlus_sound cls (s : jsstring) k (a : A) :
  Regex.greedyPlus cls s k = Some a ->
  exists m r, s = m ++ r /\ m <> [] /\ Forall (fun c => cls c = true) m /\
              k m r = Some a.
Proof.
  revert k. induction s as [|c s IH]; intros k; cbn; [done|].
  destruct (cls c) eqn:Hc; [|done].
  destruct (Regex.greedyPlus cls s _) as [a'|] eqn:Hrec.
  - intros [= ->]. apply IH in Hrec as (m & r & -> & _ & Hm & Hk).
    exists (c :: m), r. repeat split; [done | by constructor | done].
  - intros Hk. exists [c], s. repeat split; [done | by repeat constructor | done].
Qed.

Lemma lazyPlus_sound cls (s : jsstring) k (a : A) :
  Regex.lazyPlus cls s k = Some a ->
  exists m r, s = m ++ r /\ m <> [] /\ Forall (fun c => cls c = true) m /\
              k m r = Some a.
Proof.
  revert k. induction s as [|c s IH]; intros k; cbn; [done|].
  destruct (cls c) eqn:Hc; [|done].
  destruct (k [c] s) as [a'|] eqn:Hk.
  - intros [= ->]. exists [c], s. repeat split; [done | by repeat constructor | done].
  - intros (m & r & -> & _ & Hm & Hk')%IH.
    exists (c :: m), r. repeat split; [done | by constructor | done].
Qed.

(** The run that cannot be extended is tried first. *)
Lemma greedyPlus_longest cls (m r : jsstring) k (a : A) :
  m <> [] -> Forall (fun c => cls c = true) m ->
  match r with [] => True | c :: _ => cls c = false end ->
  k m r = Some a ->
  Regex.greedyPlus cls (m ++ r) k = Some a.
Proof.
  intros Hne Hm Hr. revert k. induction Hm as [|c m Hc Hm IH]; intros k Hk; [done|].
  cbn. rewrite Hc. destruct m as [|c' m].
  - cbn. destruct r as [|c' r]; cbn; [done|]. by rewrite Hr.
  - by rewrite (IH ltac:(done) (fun m0 r0 => k (c :: m0) r0) Hk).
Qed.

(** The shortest run the continuation accepts is the one taken. *)
Lemma lazyPlus_shortest cls (m r : jsstring) k (a : A) :
  m <> [] -> Forall (fun c => cls c = true) m ->
  (forall m1 m2, m = m1 ++ m2 -> m1 <> [] -> m2 <> [] -> k m1 (m2 ++ r) = None) ->
  k m r = Some a ->
  Regex.lazyPlus cls (m ++ r) k = Some a.
Proof.
  intros Hne Hm. revert k. induction Hm as [|c m Hc Hm IH]; intros k Hshort Hk; [done|].
  cbn. rewrite Hc. destruct m as [|c' m].
  - cbn. by rewrite Hk.
  - rewrite (Hshort [c] (c' :: m)) by done.
    apply (IH ltac:(done) (fun m0 r0 => k (c :: m0) r0)); [|done].
    intros m1 m2 Heq Hm1 Hm2. apply (Hshort (c :: m1) m2); [|done..].
    cbn. by rewrite Heq.
Qed.
End Matcher.

(** The capture of [(.+?)(?:\n|$)]: a run without line terminator that ends
    at a line feed or at the end of the text is taken whole. *)
Lemma lazyPlus_line (cap rest : jsstring) :
  cap <> [] -> Forall (fun c => isDot c = true) cap ->
  Regex.newlineOrEnd rest = true ->
  Regex.lazyPlus isDot (cap ++ rest)
    (fun cap s3 => if Regex.newlineOrEnd s3 then Some cap else None)
  = Some cap.
Proof.
  intros Hne Hcap Hrest. apply lazyPlus_shortest; [done..| |by rewrite Hrest].
  intros m1 [|c m2] -> _ Hm2; [done|]. cbn.
  apply Forall_app in Hcap as [_ Hc]. apply Forall_cons in Hc as [Hc _].
  destruct (N.eqb_spec c 10) as [->|]; [done|done].
Qed.

(** ** The four title conventions *)

(** X4: The bold convention: the first pattern matches exactly the texts that
    start with two stars, a non-empty star-free title and two stars, and
    captures that title; a greeting of that form gets the title, trimmed,
    whatever follows. *)
Theorem boldPattern_characterised :
  (forall s cap,
      Regex.boldPattern s = Some cap <->
      cap <> [] /\ Forall (fun c => c <> 42%N) cap /\
      exists rest, s = js "**" ++ cap ++ js "**" ++ rest) /\
  (forall title rest,
      title <> [] -> Forall (fun c => c <> 42%N) title ->
      extractTitleFromGreeting (js "**" ++ title ++ js "**" ++ rest)
      = Some (trim title)).
Proof.
  assert (forall cap rest,
             cap <> [] -> Forall (fun c => c <> 42%N) cap ->
             Regex.boldPattern (js "**" ++ cap ++ js "**" ++ rest) = Some cap)
    as Hcomplete.
  { intros cap rest Hne Hcap. unfold Regex.boldPattern.
    rewrite literal_exact_complete.
    apply greedyPlus_longest; [done| | done |by rewrite literal_exact_complete].
    eapply Forall_impl; [exact Hcap|]. intros c Hc. unfold Regex.isNot.
    by destruct (N.eqb_spec c 42). }
  split.
  - intros s cap. split.
    + unfold Regex.boldPattern.
      intros (s1 & -> & (m & r & -> & Hne & Hm & Hk)%greedyPlus_sound)%literal_exact_sound.
      apply literal_exact_sound in Hk as (rest & -> & [= ->]).
      repeat split; [done| |by exists rest].
      eapply Forall_impl; [exact Hm|]. intros c. unfold Regex.isNot.
      by destruct (N.eqb_spec c 42).
    + intros (Hne & Hcap & rest & ->). by apply Hcomplete.
  - intros title rest Hne Htitle. unfold extractTitleFromGreeting.
    assert (trim (js "**" ++ title ++ js "**" ++ rest)
            = js "**" ++ title ++ js "**" ++ trimEnd rest) as Htrim.
    { unfold trim. change (js "**" ++ title ++ js "**" ++ rest)
        with (42%N :: 42%N :: title ++ 42%N :: 42%N :: rest).
      rewrite trimStart_fixed by done.
      change (42%N :: 42%N :: title ++ 42%N :: 42%N :: rest)
        with ((42%N :: 42%N :: title ++ [42%N]) ++ 42%N :: rest)
        || replace (42%N :: 42%N :: title ++ 42%N :: 42%N :: rest)
             with ((42%N :: 42%N :: title ++ [42%N]) ++ 42%N :: rest)
             by (cbn; by rewrite <- (assoc_L (++))).
      rewrite trimEnd_app_nonspace by done. cbn. by rewrite <- (assoc_L (++)). }
    cbn [firstMatch Regex.patterns]. rewrite Htrim, (Hcomplete title _ Hne Htitle).
    reflexivity.
Qed.

Lemma boldPattern_characterised_witness :
  js " Pilot " <> [] /\ Forall (fun c => c <> 42%N) (js " Pilot ") /\
  extractTitleFromGreeting (js "**" ++ js " Pilot " ++ js "**" ++ LF ++ js "Hello")
  = Some (js "Pilot").
Proof.
  assert (js " Pilot " <> []) as Hne by discriminate.
  assert (Forall (fun c => c <> 42%N) (js " Pilot ")) as Hclean
    by (repeat constructor; discriminate).
  split; [exact Hne|]. split; [exact Hclean|].
  exact (proj2 boldPattern_characterised (js " Pilot ") (LF ++ js "Hello") Hne Hclean).
Defined.

(** X5: The quoted convention, in the same way: the third pattern matches
    exactly a double quote, a non-empty title without double quote and a
    double quote; such a greeting gets the title, trimmed. *)
Theorem quotedPattern_characterised :
  (forall s cap,
      Regex.quotedPattern s = Some cap <->
      cap <> [] /\ Forall (fun c => c <> 34%N) cap /\
      exists rest, s = [34%N] ++ cap ++ [34%N] ++ rest) /\
  (forall title rest,
      title <> [] -> Forall (fun c => c <> 34%N) title ->
      extractTitleFromGreeting ([34%N] ++ title ++ [34%N] ++ rest)
      = Some (trim title)).
Proof.
  assert (forall cap rest,
             cap <> [] -> Forall (fun c => c <> 34%N) cap ->
             Regex.quotedPattern ([34%N] ++ cap ++ [34%N] ++ rest) = Some cap)
    as Hcomplete.
  { intros cap rest Hne Hcap. unfold Regex.quotedPattern.
    rewrite literal_exact_complete.
    apply greedyPlus_longest; [done| | done |by rewrite literal_exact_complete].
    eapply Forall_impl; [exact Hcap|]. intros c Hc. unfold Regex.isNot.
    by destruct (N.eqb_spec c 34). }
  split.
  - intros s cap. split.
    + unfold Regex.quotedPattern.
      intros (s1 & -> & (m & r & -> & Hne & Hm & Hk)%greedyPlus_sound)%literal_exact_sound.
      apply literal_exact_sound in Hk as (rest & -> & [= ->]).
      repeat split; [done| |by exists rest].
      eapply Forall_impl; [exact Hm|]. intros c. unfold Regex.isNot.
      by destruct (N.eqb_spec c 34).
    + intros (Hne & Hcap & rest & ->). by apply Hcomplete.
  - intros title rest Hne Htitle. unfold extractTitleFromGreeting.
    assert (trim ([34%N] ++ title ++ [34%N] ++ rest)
            = [34%N] ++ title ++ [34%N] ++ trimEnd rest) as Htrim.
    { unfold trim. cbn [app]. rewrite trimStart_fixed by done.
      change (34%N :: title ++ 34%N :: rest) with ((34%N :: title) ++ 34%N :: rest).
      by rewrite trimEnd_app_nonspace. }
    cbn [firstMatch Regex.patterns].
    rewrite Htrim, (Hcomplete title _ Hne Htitle). reflexivity.
Qed.

Lemma quotedPattern_characterised_witness :
  js "Runaway" <> [] /\ Forall (fun c => c <> 34%N) (js "Runaway") /\
  extractTitleFromGreeting ([34%N] ++ js "Runaway" ++ [34%N] ++ LF ++ js "Scene.")
  = Some (js "Runaway").
Proof.
  assert (js "Runaway" <> []) as Hne by discriminate.
  assert (Forall (fun c => c <> 34%N) (js "Runaway")) as Hclean
    by (repeat constructor; discriminate).
  split; [exact Hne|]. split; [exact Hclean|].
  exact (proj2 quotedPattern_characterised (js "Runaway") (LF ++ js "Scene.") Hne Hclean).
Defined.

Lemma isDot_not_terminator (cap : jsstring) :
  Forall (fun c => isDot c = true) cap <->
  Forall (fun c => isLineTerminator c = false) cap.
Proof.
  split; intros H; (eapply Forall_impl; [exact H|]); intros c; unfold isDot;
    by destruct (isLineTerminator c).
Qed.

(** X6: The heading convention.  Whatever the second pattern captures follows a
    hash and at least one whitespace code unit, is non-empty, holds no line
    terminator and ends at a line feed or at the end of the text.
    Conversely a hash, whitespace and a title line that starts with a
    non-blank are matched with that line as the capture, and a trimmed
    greeting of this form gets the line, trimmed, as its title. *)
Theorem headingPattern_characterised :
  (forall s cap,
      Regex.headingPattern s = Some cap ->
      exists ws rest,
        s = [35%N] ++ ws ++ cap ++ rest /\
        ws <> [] /\ allSpaces ws /\
        cap <> [] /\ Forall (fun c => isLineTerminator c = false) cap /\
        Regex.newlineOrEnd rest = true) /\
  (forall ws c line rest,
      ws <> [] -> allSpaces ws ->
      isSpace c = false ->
      Forall (fun c => isLineTerminator c = false) (c :: line) ->
      Regex.newlineOrEnd rest = true ->
      Regex.headingPattern ([35%N] ++ ws ++ (c :: line) ++ rest) = Some (c :: line) /\
      (trim ([35%N] ++ ws ++ (c :: line) ++ rest) = [35%N] ++ ws ++ (c :: line) ++ rest ->
       extractTitleFromGreeting ([35%N] ++ ws ++ (c :: line) ++ rest)
       = Some (trim (c :: line)))).
Proof.
  split.
  - intros s cap. unfold Regex.headingPattern.
    intros (s1 & -> & (ws & s2 & -> & Hws & Hsp & Hk)%greedyPlus_sound)%literal_exact_sound.
    apply lazyPlus_sound in Hk as (m & rest & -> & Hne & Hm & Hk).
    destruct (Regex.newlineOrEnd rest) eqn:Hrest; [|done]. injection Hk as <-.
    exists ws, rest. repeat split; try done. by apply isDot_not_terminator.
  - intros ws c line rest Hws Hsp Hc Hline Hrest.
    assert (Regex.headingPattern ([35%N] ++ ws ++ (c :: line) ++ rest)
            = Some (c :: line)) as Hmatch.
    { unfold Regex.headingPattern. rewrite literal_exact_complete.
      apply greedyPlus_longest; [done..|].
      apply lazyPlus_line; [done| |done]. by apply isDot_not_terminator. }
    split; [exact Hmatch|]. intros Htrim.
    unfold extractTitleFromGreeting. cbn [firstMatch Regex.patterns].
    rewrite Htrim, Hmatch. reflexivity.
Qed.

Lemma headingPattern_characterised_witness :
  js " " <> [] /\ allSpaces (js " ") /\ isSpace 80 = false /\
  Forall (fun c => isLineTerminator c = false) (js "Pilot") /\
  Regex.newlineOrEnd (LF ++ js "Welcome") = true /\
  trim (js "# Pilot" ++ LF ++ js "Welcome") = js "# Pilot" ++ LF ++ js "Welcome" /\
  extractTitleFromGreeting (js "# Pilot" ++ LF ++ js "Welcome") = Some (js "Pilot").
Proof.
  assert (js " " <> []) as Hws by discriminate.
  assert (allSpaces (js " ")) as Hsp by (repeat constructor).
  assert (Forall (fun c => isLineTerminator c = false) (js "Pilot")) as Hline
    by (repeat constructor).
  do 5 (split; [done|]). split; [reflexivity|].
  exact (proj2 (proj2 headingPattern_characterised (js " ") 80%N (js "ilot")
                  (LF ++ js "Welcome") Hws Hsp eq_refl Hline eq_refl) eq_refl).
Defined.

Lemma greedyStar_sound {A : Type} (cls : N -> bool) (s : jsstring)
    (k : jsstring -> jsstring -> option A) (a : A) :
  Regex.greedyStar cls s k = Some a ->
  exists m r, s = m ++ r /\ Forall (fun c => cls c = true) m /\ k m r = Some a.
Proof.
  unfold Regex.greedyStar.
  destruct (Regex.greedyPlus cls s k) as [a'|] eqn:Hplus.
  - intros [= ->]. apply greedyPlus_sound in Hplus as (m & r & -> & _ & Hm & Hk).
    by exists m, r.
  - intros Hk. by exists [], s.
Qed.

Lemma greedyStar_longest {A : Type} (cls : N -> bool) (m r : jsstring)
    (k : jsstring -> jsstring -> option A) (a : A) :
  Forall (fun c => cls c = true) m ->
  match r with [] => True | c :: _ => cls c = false end ->
  k m r = Some a ->
  Regex.greedyStar cls (m ++ r) k = Some a.
Proof.
  intros Hm Hr Hk. unfold Regex.greedyStar. destruct m as [|c m].
  - cbn [app]. destruct r as [|c r]; cbn; [done|]. by rewrite Hr.
  - by rewrite (greedyPlus_longest cls (c :: m) r k a).
Qed.

Lemma literal_complete {A : Type} (eqc : N -> N -> bool) (p w r : jsstring)
    (k : jsstring -> option A) :
  Forall2 (fun x c => eqc x c = true) p w ->
  Regex.literal eqc p (w ++ r) k = k r.
Proof. induction 1 as [|x c p w Hc _ IH]; cbn; [done|]. by rewrite Hc. Qed.

Lemma isDigit_not_space (c : N) : isDigit c = true -> isSpace c = false.
Proof.
  unfold isDigit. intros [Hlo%N.leb_le Hhi%N.leb_le]%andb_prop.
  unfold isSpace, isWhiteSpace, isLineTerminator.
  repeat (rewrite (proj2 (N.eqb_neq c _)) by lia).
  by rewrite (proj2 (N.leb_gt 8192 c)) by lia.
Qed.

(** The word of the fourth pattern, up to the case of its letters. *)
Lemma episode_word_initial (w : jsstring) :
  Forall2 (fun x c => Regex.eqIgnoreCase x c = true) (js "Episode") w ->
  exists c w', w = c :: w' /\ (c = 69%N \/ c = 101%N).
Proof.
  intros Hw. change (js "Episode") with (69%N :: js "pisode") in Hw.
  inversion Hw as [|x c p w' Hc _]; subst. exists c, w'. split; [done|].
  unfold Regex.eqIgnoreCase in Hc. apply N.eqb_eq in Hc.
  change (Regex.toUpperASCII 69) with 69%N in Hc.
  unfold Regex.toUpperASCII in Hc.
  destruct ((97 <=? c)%N && (c <=? 122)%N) eqn:Hrange.
  - apply andb_prop in Hrange as [Hlo%N.leb_le Hhi%N.leb_le]. right. lia.
  - by left.
Qed.

(** X7: The episode convention.  Whatever the fourth pattern captures follows
    the word Episode in any letter case, whitespace, a number, a colon and
    optional whitespace; it is non-empty, holds no line terminator and ends
    at a line feed or at the end of the text.  Conversely a text of this form
    whose rest starts with a non-blank is matched with that rest as the
    capture, and a trimmed greeting of this form gets the rest, trimmed, as
    its title. *)
Theorem episodePattern_characterised :
  (forall s cap,
      Regex.episodePattern s = Some cap ->
      exists word ws digits ws' rest,
        s = word ++ ws ++ digits ++ [58%N] ++ ws' ++ cap ++ rest /\
        Forall2 (fun x c => Regex.eqIgnoreCase x c = true) (js "Episode") word /\
        ws <> [] /\ allSpaces ws /\
        digits <> [] /\ Forall (fun c => isDigit c = true) digits /\
        allSpaces ws' /\
        cap <> [] /\ Forall (fun c => isLineTerminator c = false) cap /\
        Regex.newlineOrEnd rest = true) /\
  (forall word ws digits ws' c line rest,
      Forall2 (fun x c => Regex.eqIgnoreCase x c = true) (js "Episode") word ->
      ws <> [] -> allSpaces ws ->
      digits <> [] -> Forall (fun c => isDigit c = true) digits ->
      allSpaces ws' ->
      isSpace c = false ->
      Forall (fun c => isLineTerminator c = false) (c :: line) ->
      Regex.newlineOrEnd rest = true ->
      let greeting := word ++ ws ++ digits ++ [58%N] ++ ws' ++ (c :: line) ++ rest in
      Regex.episodePattern greeting = Some (c :: line) /\
      (trim greeting = greeting ->
       extractTitleFromGreeting greeting = Some (trim (c :: line)))).
Proof.
  split.
  - intros s cap. unfold Regex.episodePattern.
    intros (word & s1 & -> & Hword & Hk)%literal_sound.
    apply greedyPlus_sound in Hk as (ws & s2 & -> & Hws & Hsp & Hk).
    apply greedyPlus_sound in Hk as (digits & s3 & -> & Hds & Hdigits & Hk).
    apply literal_exact_sound in Hk as (s4 & -> & Hk).
    apply greedyStar_sound in Hk as (ws' & s5 & -> & Hsp' & Hk).
    apply lazyPlus_sound in Hk as (m & rest & -> & Hne & Hm & Hk).
    destruct (Regex.newlineOrEnd rest) eqn:Hrest; [|done]. injection Hk as <-.
    exists word, ws, digits, ws', rest. repeat split; try done.
    by apply isDot_not_terminator.
  - intros word ws digits ws' c line rest Hword Hws Hsp Hds Hdigits Hsp' Hc Hline
      Hrest greeting.
    assert (Regex.episodePattern greeting = Some (c :: line)) as Hmatch.
    { subst greeting. unfold Regex.episodePattern. rewrite (literal_complete _ _ _ _ _ Hword).
      apply greedyPlus_longest; [done..| |].
      { destruct digits as [|d digits]; [done|]. cbn.
        apply Forall_cons in Hdigits as [Hd _]. by apply isDigit_not_space. }
      apply greedyPlus_longest; [done..|].
      rewrite literal_exact_complete.
      apply greedyStar_longest; [done..|].
      apply lazyPlus_line; [done| |done]. by apply isDot_not_terminator. }
    split; [exact Hmatch|]. intros Htrim.
    unfold extractTitleFromGreeting. cbn [firstMatch Regex.patterns].
    rewrite Htrim, Hmatch.
    destruct (episode_word_initial word Hword) as (c0 & w' & Hw & Hc0).
    subst greeting. rewrite Hw.
    by destruct Hc0 as [-> | ->].
Qed.

Lemma episodePattern_characterised_witness :
  Forall2 (fun x c => Regex.eqIgnoreCase x c = true) (js "Episode") (js "EPISODE") /\
  allSpaces (js " ") /\ Forall (fun c => isDigit c = true) (js "12") /\
  allSpaces (js "  ") /\ isSpace 70 = false /\
  Forall (fun c => isLineTerminator c = false) (js "Finale") /\
  trim (js "EPISODE 12:  Finale") = js "EPISODE 12:  Finale" /\
  extractTitleFromGreeting (js "EPISODE 12:  Finale") = Some (js "Finale").
Proof.
  assert (Forall2 (fun x c => Regex.eqIgnoreCase x c = true) (js "Episode") (js "EPISODE"))
    as Hword by (repeat constructor).
  assert (allSpaces (js " ")) as Hsp by (repeat constructor).
  assert (Forall (fun c => isDigit c = true) (js "12")) as Hdigits by (repeat constructor).
  assert (allSpaces (js "  ")) as Hsp' by (repeat constructor).
  assert (Forall (fun c => isLineTerminator c = false) (js "Finale")) as Hline
    by (repeat constructor).
  do 6 (split; [done|]). split; [reflexivity|].
  refine (proj2 (proj2 episodePattern_characterised (js "EPISODE") (js " ") (js "12")
                   (js "  ") 70%N (js "inale") [] Hword _ Hsp _ Hdigits Hsp' eq_refl
                   Hline eq_refl) eq_refl); discriminate.
Defined.

(** ** Catalog shape *)

Lemma truthy_nonempty (t : jsstring) : truthy t = true -> t <> [].
Proof. by destruct t. Qed.

(** X8: No catalog title is ever empty: neither in the list built from any
    character, nor in the list a constructed stage holds after any history
    of events. *)
Theorem catalog_titles_nonempty :
  (forall character, Forall (fun t => t <> []) (extractEpisodeTitles character)) /\
  (forall now data es,
      Forall (fun t => t <> []) (episodeTitles (run es (constructor now data)))).
Proof.
  split.
  - intros character. eapply Forall_impl; [apply extractEpisodeTitles_truthy|].
    apply truthy_nonempty.
  - intros now data es. eapply Forall_impl; [apply run_titles_truthy|].
    apply truthy_nonempty.
Qed.

(** X9: Without a primary greeting the catalog is one entry short of the
    episode count and shifted: entry [i] is the title of the alternate
    greeting at position [i], whose positional default is numbered [i + 2],
    and the last episode has no entry at all. *)
Theorem catalog_without_primary_greeting
    (now : Z) (nm first_mes : option jsstring) (greetings : list jsstring)
    (others : list Character.t) (cfg : option PartialConfig.t)
    (init : option InitState.t) (chat : option ChatState.t)
    (msg : option MessageState.t) :
  first_mes = None \/ first_mes = Some [] ->
  let this := constructor now
                (InitialData.mk
                   (CharactersArray
                      (Character.mk nm first_mes (GreetingsArray greetings) :: others))
                   cfg init chat msg) in
  totalEpisodes this = 1 + Z.of_nat (length greetings) /\
  length (episodeTitles this) = length greetings /\
  (forall i greeting,
      greetings !! i = Some greeting ->
      episodeTitles this !! i
      = Some (orElse (extractTitleFromGreeting greeting)
                     (js "Episode " ++ show (Z.of_nat i + 2)))) /\
  titleAt (episodeTitles this) (totalEpisodes this - 1) = None.
Proof.
  intros Hfirst this.
  assert (episodeTitles this = pushAlternateTitles greetings 0 []) as Htitles.
  { subst this. unfold constructor.
    cbn [InitialData.config InitialData.characters Character.alternate_greetings].
    destruct cfg; stage_simpl; unfold extractEpisodeTitles;
      cbn [Character.first_mes Character.alternate_greetings];
      by destruct Hfirst as [-> | ->]. }
  assert (totalEpisodes this = 1 + Z.of_nat (length greetings)) as Htotal.
  { subst this. unfold constructor.
    cbn [InitialData.config InitialData.characters Character.alternate_greetings].
    destruct cfg; by stage_simpl. }
  assert (length (episodeTitles this) = length greetings) as Hlen.
  { by rewrite Htitles, pushAlternateTitles_length. }
  repeat split; [done..| |].
  - intros i greeting Hi. rewrite Htitles.
    exact (pushAlternateTitles_new greetings 0 [] i greeting Hi).
  - unfold titleAt. rewrite Htotal.
    destruct (Z.ltb_spec (1 + Z.of_nat (length greetings) - 1) 0); [done|].
    apply lookup_ge_None. rewrite Hlen. lia.
Qed.

Lemma catalog_without_primary_greeting_witness :
  episodeTitles
    (constructor 0
       (dataOf (Character.mk None None (GreetingsArray [js "**Twist**"; js ""]))))
  !! 1%nat = Some (js "Episode 3") /\
  totalEpisodes
    (constructor 0
       (dataOf (Character.mk None None (GreetingsArray [js "**Twist**"; js ""])))) = 3.
Proof.
  pose proof (catalog_without_primary_greeting 0 None None [js "**Twist**"; js ""]
                [] None None None None (or_introl eq_refl))
    as (Htotal & _ & Hentry & _).
  split; [exact (Hentry 1%nat (js "") eq_refl) | exact Htotal].
Defined.

(** ** Diagnostic log *)

Lemma addDebugLog_snoc (now : Z) (ev : jsstring) (d : DebugData) (s : Stage) :
  exists kept, kept `suffix_of` debugLog s /\
    debugLog (addDebugLog now ev d s) = kept ++ [mkEntry now ev d].
Proof.
  destruct (addDebugLog_debugLog now ev d s (debugLog s) [])
    as (kept & Hkept & Hlog); [cbn; lia | by rewrite app_nil_r |].
  by exists kept.
Qed.

Lemma addDebugLog_length (now : Z) (ev : jsstring) (d : DebugData) (s : Stage) :
  length (debugLog (addDebugLog now ev d s))
  = Nat.min 50 (S (length (debugLog s))).
Proof.
  unfold addDebugLog. cbn [debugLog setDebugLog].
  destruct (Nat.ltb_spec 50 (length (debugLog s ++ [mkEntry now ev d]))) as [Hfull|Hroom];
    cbn [debugLog setDebugLog]; rewrite length_app in *; cbn [length] in *.
  - unfold sliceLast. rewrite length_drop, length_app. cbn [length]. lia.
  - lia.
Qed.

Lemma addDebugLog_Forall (P : DebugLogEntry -> Prop)
    (now : Z) (ev : jsstring) (d : DebugData) (s : Stage) :
  Forall P (debugLog s) -> P (mkEntry now ev d) ->
  Forall P (debugLog (addDebugLog now ev d s)).
Proof.
  intros Hlog He. destruct (addDebugLog_snoc now ev d s) as (kept & [k Hk] & ->).
  rewrite Hk in Hlog. apply Forall_app in Hlog as [_ Hkept].
  apply Forall_app. split; [done | by constructor].
Qed.

Lemma step_log_bounded (s : Stage) (e : Event) :
  (length (debugLog s) <= 50)%nat -> (length (debugLog (step s e)) <= 50)%nat.
Proof.
  intros Hlen.
  destruct e as [|? ? ? ?|? ? ? ?|? [st|]| | |]; cbn [step];
    unfold load, beforePrompt, afterResponse, setState, goToNextEpisode,
      goToPreviousEpisode, clearDebugLog;
    repeat match goal with
      | |- context [if ?b then _ else _] => destruct b
      end;
    stage_simpl; rewrite ?addDebugLog_length; cbn [length]; lia.
Qed.

(** X10: The log is a bounded queue.  [addDebugLog] always records the new entry
    last, in front of it keeps a suffix of the former log, and leaves
    [min 50 (n + 1)] entries when there were [n]; in every state a
    constructed stage can reach the log holds at most 50 entries. *)
Theorem debugLog_bounded_queue :
  (forall now ev d s,
      last (debugLog (addDebugLog now ev d s)) = Some (mkEntry now ev d) /\
      debugLog (addDebugLog now ev d s) `suffix_of` debugLog s ++ [mkEntry now ev d] /\
      length (debugLog (addDebugLog now ev d s)) = Nat.min 50 (S (length (debugLog s)))) /\
  (forall now data es,
      (length (getDebugLog (run es (constructor now data))) <= 50)%nat).
Proof.
  split.
  - intros now ev d s. destruct (addDebugLog_snoc now ev d s) as (kept & Hkept & Hlog).
    rewrite Hlog. repeat split.
    + apply last_snoc.
    + by apply suffix_app.
    + rewrite <- Hlog. apply addDebugLog_length.
  - intros now data es. unfold getDebugLog.
    induction es as [|e es IH] using rev_ind.
    + cbn [run fold_left]. unfold constructor.
      destruct (InitialData.config data),
        (InitialData.characters data) as [| |[|mainChar others]];
        try destruct (Character.alternate_greetings mainChar);
        stage_simpl; rewrite addDebugLog_length; lia.
    + rewrite run_snoc. by apply step_log_bounded.
Qed.

(** Membership of a literal name in [loggedEvents]. *)
Ltac logged_event :=
  unfold loggedEvents;
  repeat first [apply list_elem_of_here | apply list_elem_of_further].

Lemma step_log_events (P : DebugLogEntry -> Prop) (s : Stage) (e : Event) :
  (forall now ev d, ev ∈ loggedEvents -> P (mkEntry now ev d)) ->
  Forall P (debugLog s) -> Forall P (debugLog (step s e)).
Proof.
  intros HP Hlog.
  assert (forall ev, ev ∈ loggedEvents -> forall now d s',
             Forall P (debugLog s') -> Forall P (debugLog (addDebugLog now ev d s')))
    as Hadd by (intros; apply addDebugLog_Forall; auto).
  destruct e as [|? ? ? ?|? ? ? ?|? [st|]| | |]; cbn [step];
    unfold load, beforePrompt, afterResponse, setState, goToNextEpisode,
      goToPreviousEpisode, clearDebugLog;
    repeat match goal with
      | |- context [if ?b then _ else _] => destruct b
      end;
    stage_simpl; try done;
    repeat (apply Hadd; [by logged_event|]); stage_simpl; done.
Qed.

(** X11: Every entry the stage writes to its log carries one of its nine event
    names, and [getEventColor] gives each of them a colour of its own kind:
    no entry of a reachable log falls through to the default grey.  The
    response entries share the colour of their hook and both navigation
    entries take the colour of the substring Episode. *)
Theorem logged_events_are_coloured :
  (forall now data es,
      Forall (fun entry => event entry ∈ loggedEvents /\
                           getEventColor (event entry) <> js "#94a3b8")
        (getDebugLog (run es (constructor now data)))) /\
  List.map getEventColor loggedEvents
  = [js "#a855f7"; js "#ec4899"; js "#4a9eff"; js "#4a9eff"; js "#4ade80";
     js "#4ade80"; js "#f59e0b"; js "#06b6d4"; js "#06b6d4"].
Proof.
  split; [|by vm_compute].
  assert (forall now ev d,
             ev ∈ loggedEvents ->
             event (mkEntry now ev d) ∈ loggedEvents /\
             getEventColor (event (mkEntry now ev d)) <> js "#94a3b8") as HP.
  { intros now ev d Hev. split; [done|]. cbn [event].
    assert (Forall (fun ev => getEventColor ev <> js "#94a3b8") loggedEvents) as Hall
      by (repeat constructor; by vm_compute).
    by apply (proj1 (Forall_forall _ _) Hall). }
  intros now data es. unfold getDebugLog. induction es as [|e es IH] using rev_ind.
  - cbn [run fold_left]. unfold constructor.
    destruct (InitialData.config data),
      (InitialData.characters data) as [| |[|mainChar others]];
      try destruct (Character.alternate_greetings mainChar);
      stage_simpl; (apply addDebugLog_Forall; [by constructor|]);
      apply HP; by logged_event.
  - rewrite run_snoc. by apply step_log_events.
Qed.

(** ** Snapshots *)

Lemma step_characterName (s : Stage) (e : Event) :
  characterName (step s e) = characterName s.
Proof.
  destruct e as [|? ? ? ?|? ? ? ?|? [st|]| | |]; cbn [step];
    unfold load, beforePrompt, afterResponse, setState, goToNextEpisode,
      goToPreviousEpisode, clearDebugLog;
    repeat match goal with
      | |- context [if ?b then _ else _] => destruct b
      end;
    by stage_simpl.
Qed.

Lemma run_characterName (es : list Event) (s : Stage) :
  characterName (run es s) = characterName s.
Proof.
  induction es as [|e es IH] using rev_ind; [done|].
  by rewrite run_snoc, step_characterName.
Qed.

(** X12: The init snapshot is fixed at construction: whatever has happened since,
    [load] reports the episode count, character name and titles it would
    have reported right after the constructor, and it leaves the navigation
    fields alone while reporting the in-memory chat state. *)
Theorem load_reports_construction (now : Z) (data : InitialData.t)
    (es : list Event) (t t' : Z) :
  let s0 := constructor now data in
  let s := run es s0 in
  LoadResponse.initState (fst (load t s)) = LoadResponse.initState (fst (load t' s0)) /\
  LoadResponse.chatState (fst (load t s))
  = ChatState.mk (highestEpisodeReached s) (completed s) /\
  currentEpisode (snd (load t s)) = currentEpisode s /\
  highestEpisodeReached (snd (load t s)) = highestEpisodeReached s /\
  completed (snd (load t s)) = completed s.
Proof.
  cbn zeta. unfold load. cbn [fst snd LoadResponse.initState LoadResponse.chatState].
  destruct (run_catalog es (constructor now data)) as (-> & -> & _).
  rewrite run_characterName. by stage_simpl.
Qed.

(** X13: A turn snapshot restores the episode it was taken on: feeding the
    message state returned by either hook back to [setState] puts any stage
    on the index the snapshot was taken at; a restore without snapshot
    leaves the index where it is. *)
Theorem turn_snapshot_round_trip
    (t1 t2 t3 now : Z) (m : Message.t) (s s' : Stage) :
  currentEpisode
    (setState now (Some (StageResponse.messageState (fst (beforePrompt t1 t2 t3 m s)))) s')
  = currentEpisode s /\
  currentEpisode
    (setState now (Some (StageResponse.messageState (fst (afterResponse t1 t2 t3 m s)))) s')
  = currentEpisode s /\
  currentEpisode (setState now None s') = currentEpisode s'.
Proof.
  unfold setState, beforePrompt, afterResponse.
  cbn [fst StageResponse.messageState MessageState.currentEpisode numOrZero].
  stage_simpl. by destruct (Z.eqb_spec (currentEpisode s) 0) as [->|].
Qed.

(** ** Buttons *)

(** X14: Next and Prev undo each other on the index, but not on the high-water
    mark: stepping forward and back returns to the same episode with
    [highestEpisodeReached] raised to the episode visited. *)
Theorem next_previous_round_trip (t t' : Z) (s : Stage) :
  (0 <= currentEpisode s < totalEpisodes s - 1 ->
   currentEpisode (goToPreviousEpisode t' (goToNextEpisode t s)) = currentEpisode s /\
   highestEpisodeReached (goToPreviousEpisode t' (goToNextEpisode t s))
   = Z.max (highestEpisodeReached s) (currentEpisode s + 1)) /\
  (0 < currentEpisode s <= totalEpisodes s - 1 ->
   currentEpisode (goToNextEpisode t' (goToPreviousEpisode t s)) = currentEpisode s /\
   highestEpisodeReached (goToNextEpisode t' (goToPreviousEpisode t s))
   = Z.max (highestEpisodeReached s) (currentEpisode s)).
Proof.
  split; intros Hrange.
  - destruct (goToPreviousEpisode_fields t' (goToNextEpisode t s))
      as (_ & _ & _ & -> & -> & _).
    destruct (goToNextEpisode_fields t s) as (_ & _ & _ & -> & -> & _).
    destruct (Z.ltb_spec (currentEpisode s) (totalEpisodes s - 1)); [|lia].
    destruct (Z.gtb_spec (currentEpisode s + 1) 0); [|lia]. split; [lia|done].
  - destruct (goToNextEpisode_fields t' (goToPreviousEpisode t s))
      as (_ & _ & _ & -> & -> & _).
    destruct (goToPreviousEpisode_fields t s) as (-> & _ & _ & -> & -> & _).
    destruct (Z.gtb_spec (currentEpisode s) 0); [|lia].
    destruct (Z.ltb_spec (currentEpisode s - 1) (totalEpisodes s - 1)); [|lia].
    split; [lia|]. f_equal. lia.
Qed.

Lemma next_previous_round_trip_witness :
  0 <= currentEpisode pilotStage < totalEpisodes pilotStage - 1 /\
  currentEpisode (goToPreviousEpisode 2 (goToNextEpisode 1 pilotStage))
  = currentEpisode pilotStage /\
  0 < currentEpisode finaleStage <= totalEpisodes finaleStage - 1 /\
  currentEpisode (goToNextEpisode 4 (goToPreviousEpisode 3 finaleStage))
  = currentEpisode finaleStage.
Proof.
  assert (0 <= currentEpisode pilotStage < totalEpisodes pilotStage - 1) as H1
    by (vm_compute; split; [discriminate | reflexivity]).
  assert (0 < currentEpisode finaleStage <= totalEpisodes finaleStage - 1) as H2
    by (vm_compute; split; [reflexivity | discriminate]).
  split; [exact H1|].
  split; [exact (proj1 (proj1 (next_previous_round_trip 1 2 pilotStage) H1))|].
  split; [exact H2|].
  exact (proj1 (proj2 (next_previous_round_trip 3 4 finaleStage) H2)).
Defined.

(** ** Walking the catalog *)

(** X15: Clicking Next [k] times on a fresh stage with [n] episodes leads to
    episode [min k (n - 1)], which is then also the high-water mark; the
    in-memory completion flag is up exactly when the walk reached the last
    episode of a catalog that has more than one. *)
Theorem next_clicks_from_construction (now : Z) (data : InitialData.t) (es : list Event) :
  forallb isNext es = true ->
  let s0 := constructor now data in
  let k := Z.of_nat (length es) in
  currentEpisode (run es s0) = Z.min k (totalEpisodes s0 - 1) /\
  highestEpisodeReached (run es s0) = Z.min k (totalEpisodes s0 - 1) /\
  completed (run es s0) = (1 <? totalEpisodes s0) && (totalEpisodes s0 - 1 <=? k).
Proof.
  cbn zeta. pose proof (constructor_totalEpisodes now data) as Hn.
  destruct (constructor_navigation now data) as (Hcur & Hhigh & Hdone).
  induction es as [|e es IH] using rev_ind; intros Hnext.
  - cbn [run fold_left length]. rewrite Hcur, Hhigh, Hdone.
    destruct (Z.ltb_spec 1 (totalEpisodes (constructor now data)));
      destruct (Z.leb_spec (totalEpisodes (constructor now data) - 1) (Z.of_nat 0));
      cbn; lia.
  - rewrite forallb_app in Hnext. apply andb_prop in Hnext as [Hes He].
    destruct e; try discriminate He. clear He.
    destruct (IH Hes) as (IHcur & IHhigh & IHdone). clear IH.
    rewrite run_snoc, length_app. cbn [step length].
    destruct (run_catalog es (constructor now data)) as (Htotal & _).
    destruct (goToNextEpisode_fields now0 (run es (constructor now data)))
      as (_ & _ & _ & -> & -> & ->).
    rewrite IHcur, IHhigh, IHdone, Htotal.
    set (n := totalEpisodes (constructor now data)) in *.
    replace (Z.of_nat (length es + 1)) with (Z.of_nat (length es) + 1) by lia.
    set (k := Z.of_nat (length es)) in *. assert (0 <= k) by lia.
    destruct (Z.ltb_spec (Z.min k (n - 1)) (n - 1));
      destruct (Z.ltb_spec 1 n); destruct (Z.leb_spec (n - 1) k);
      destruct (Z.leb_spec (n - 1) (k + 1));
      destruct (Z.eqb_spec (Z.min k (n - 1) + 1) (n - 1));
      cbn [andb orb]; repeat split; lia.
Qed.

Lemma next_clicks_from_construction_witness :
  forallb isNext [EvNext 1; EvNext 2; EvNext 3; EvNext 4] = true /\
  currentEpisode (run [EvNext 1; EvNext 2; EvNext 3; EvNext 4] pilotStage) = 2 /\
  completed (run [EvNext 1; EvNext 2; EvNext 3; EvNext 4] pilotStage) = true.
Proof.
  pose proof (next_clicks_from_construction 0 (dataOf pilotCharacter)
                [EvNext 1; EvNext 2; EvNext 3; EvNext 4] eq_refl)
    as (Hcur & _ & Hdone).
  split; [reflexivity|]. split; [exact Hcur | exact Hdone].
Defined.

(** ** What holds as long as the host never restores *)

Lemma step_no_restore_invariant (s : Stage) (e : Event) :
  isRestore e = false ->
  0 <= currentEpisode s <= highestEpisodeReached s /\
  highestEpisodeReached s <= totalEpisodes s - 1 /\
  completed s = (0 <? highestEpisodeReached s)
                && (highestEpisodeReached s =? totalEpisodes s - 1) ->
  0 <= currentEpisode (step s e) <= highestEpisodeReached (step s e) /\
  highestEpisodeReached (step s e) <= totalEpisodes s - 1 /\
  completed (step s e) = (0 <? highestEpisodeReached (step s e))
                         && (highestEpisodeReached (step s e) =? totalEpisodes s - 1).
Proof.
  intros He (Hcur & Hhigh & Hdone).
  destruct e as [|? ? ? ?|? ? ? ?|? st| | |]; try discriminate He; cbn [step];
    try (unfold load, beforePrompt, afterResponse, clearDebugLog; by stage_simpl).
  - destruct (goToNextEpisode_fields now s) as (_ & _ & _ & -> & -> & ->).
    rewrite Hdone.
    destruct (Z.ltb_spec (currentEpisode s) (totalEpisodes s - 1));
      destruct (Z.ltb_spec 0 (highestEpisodeReached s));
      destruct (Z.eqb_spec (highestEpisodeReached s) (totalEpisodes s - 1));
      destruct (Z.eqb_spec (currentEpisode s + 1) (totalEpisodes s - 1));
      destruct (Z.ltb_spec 0 (Z.max (highestEpisodeReached s) (currentEpisode s + 1)));
      destruct (Z.eqb_spec (Z.max (highestEpisodeReached s) (currentEpisode s + 1))
                  (totalEpisodes s - 1));
      cbn [andb orb]; repeat split; lia.
  - destruct (goToPreviousEpisode_fields now s) as (_ & _ & _ & -> & -> & ->).
    destruct (Z.gtb_spec (currentEpisode s) 0); repeat split; (lia || done).
Qed.

Lemma no_restore_invariant_aux (now : Z) (data : InitialData.t) (es : list Event) :
  Forall (fun e => isRestore e = false) es ->
  0 <= currentEpisode (run es (constructor now data))
    <= highestEpisodeReached (run es (constructor now data)) /\
  highestEpisodeReached (run es (constructor now data))
    <= totalEpisodes (run es (constructor now data)) - 1 /\
  completed (run es (constructor now data))
  = (0 <? highestEpisodeReached (run es (constructor now data)))
    && (highestEpisodeReached (run es (constructor now data))
        =? totalEpisodes (run es (constructor now data)) - 1).
Proof.
  intros Hes.
  destruct (run_catalog es (constructor now data)) as (-> & _).
  induction es as [|e es IH] using rev_ind.
  - cbn [run fold_left]. pose proof (constructor_totalEpisodes now data).
    destruct (constructor_navigation now data) as (-> & -> & ->).
    repeat split; (lia || done).
  - apply Forall_app in Hes as [Hes He]. apply Forall_cons in He as [He _].
    rewrite run_snoc.
    destruct (run_catalog es (constructor now data)) as (Htotal & _).
    rewrite <- Htotal. apply step_no_restore_invariant; [done|].
    rewrite Htotal. by apply IH.
Qed.

(** X16: Without restores the three navigation fields stay consistent: in every
    state reached from construction by hooks, clicks and log clearing,
    [0 <= currentEpisode <= highestEpisodeReached <= totalEpisodes - 1], and
    the in-memory flag is up exactly when the high-water mark is the last
    episode of a catalog with more than one episode. *)
Theorem no_restore_invariant (now : Z) (data : InitialData.t) (es : list Event) :
  Forall (fun e => isRestore e = false) es ->
  let s := run es (constructor now data) in
  0 <= currentEpisode s <= highestEpisodeReached s /\
  highestEpisodeReached s <= totalEpisodes s - 1 /\
  completed s = (0 <? highestEpisodeReached s)
                && (highestEpisodeReached s =? totalEpisodes s - 1).
Proof.
  intros Hes. by apply no_restore_invariant_aux.
Qed.

Lemma no_restore_invariant_witness :
  Forall (fun e => isRestore e = false)
    [EvNext 1; EvAfterResponse 2 3 4 someMessage; EvPrevious 5; EvClearDebugLog] /\
  0 <= currentEpisode
         (run [EvNext 1; EvAfterResponse 2 3 4 someMessage; EvPrevious 5;
               EvClearDebugLog] pilotStage)
    <= highestEpisodeReached
         (run [EvNext 1; EvAfterResponse 2 3 4 someMessage; EvPrevious 5;
               EvClearDebugLog] pilotStage).
Proof.
  assert (Forall (fun e => isRestore e = false)
            [EvNext 1; EvAfterResponse 2 3 4 someMessage; EvPrevious 5;
             EvClearDebugLog]) as Hes by (repeat constructor).
  split; [exact Hes|].
  exact (proj1 (no_restore_invariant 0 (dataOf pilotCharacter) _ Hes)).
Defined.

(** X17: What the host is told, as long as it never restores.  Both hooks and
    [load] report the in-memory high-water mark itself.  [afterResponse]
    reports completion exactly on the last episode; on a catalog with more
    than one episode the in-memory flag that [beforePrompt] and [load]
    report is then up as well, but on a single-episode stage the two never
    agree: [afterResponse] always reports true, the others always false. *)
Theorem chat_snapshots_without_restore
    (now : Z) (data : InitialData.t) (es : list Event) (t1 t2 t3 : Z) (m : Message.t) :
  Forall (fun e => isRestore e = false) es ->
  let s := run es (constructor now data) in
  let before := StageResponse.chatState (fst (beforePrompt t1 t2 t3 m s)) in
  let after := StageResponse.chatState (fst (afterResponse t1 t2 t3 m s)) in
  ChatState.highestEpisodeReached before = highestEpisodeReached s /\
  ChatState.highestEpisodeReached after = highestEpisodeReached s /\
  ChatState.completed before = completed s /\
  ChatState.completed after = (currentEpisode s =? totalEpisodes s - 1) /\
  (1 < totalEpisodes s -> ChatState.completed after = true ->
   ChatState.completed before = true) /\
  (totalEpisodes s = 1 ->
   ChatState.completed after = true /\ ChatState.completed before = false).
Proof.
  intros Hes s before after.
  destruct (no_restore_invariant_aux now data es Hes) as (Hcur & Hhigh & Hdone).
  fold s in Hcur, Hhigh, Hdone.
  assert (ChatState.highestEpisodeReached before = highestEpisodeReached s) as Hb.
  { subst before. unfold beforePrompt.
    cbn [fst StageResponse.chatState ChatState.highestEpisodeReached]. stage_simpl. lia. }
  assert (ChatState.highestEpisodeReached after = highestEpisodeReached s) as Ha.
  { subst after. unfold afterResponse.
    cbn [fst StageResponse.chatState ChatState.highestEpisodeReached]. stage_simpl. lia. }
  assert (ChatState.completed before = completed s) as Hcb.
  { subst before. unfold beforePrompt.
    cbn [fst StageResponse.chatState ChatState.completed]. by stage_simpl. }
  assert (ChatState.completed after = (currentEpisode s =? totalEpisodes s - 1)) as Hca.
  { subst after. unfold afterResponse.
    cbn [fst StageResponse.chatState ChatState.completed]. stage_simpl.
    destruct (Z.geb_spec (currentEpisode s) (totalEpisodes s - 1));
      destruct (Z.eqb_spec (currentEpisode s) (totalEpisodes s - 1)); (done || lia). }
  repeat split; try done.
  - intros Hmany. rewrite Hca, Hcb, Hdone. intros Hlast%Z.eqb_eq.
    destruct (Z.ltb_spec 0 (highestEpisodeReached s)); [|lia].
    destruct (Z.eqb_spec (highestEpisodeReached s) (totalEpisodes s - 1)); [done|lia].
  - rewrite Hca. apply Z.eqb_eq. lia.
  - rewrite Hcb, Hdone. destruct (Z.ltb_spec 0 (highestEpisodeReached s)); [lia|done].
Qed.

Lemma chat_snapshots_without_restore_witness :
  Forall (fun e => isRestore e = false) [EvNext 1; EvPrevious 2] /\
  totalEpisodes (run [EvNext 1; EvPrevious 2] (constructor 0 (dataOf bareCharacter))) = 1 /\
  ChatState.completed
    (StageResponse.chatState
       (fst (afterResponse 3 4 5 someMessage
               (run [EvNext 1; EvPrevious 2] (constructor 0 (dataOf bareCharacter))))))
  = true /\
  ChatState.completed
    (StageResponse.chatState
       (fst (beforePrompt 3 4 5 someMessage
               (run [EvNext 1; EvPrevious 2] (constructor 0 (dataOf bareCharacter))))))
  = false.
Proof.
  assert (Forall (fun e => isRestore e = false) [EvNext 1; EvPrevious 2]) as Hes
    by (repeat constructor).
  split; [exact Hes|]. split; [reflexivity|].
  exact (proj2 (proj2 (proj2 (proj2 (proj2
           (chat_snapshots_without_restore 0 (dataOf bareCharacter) _ 3 4 5
              someMessage Hes))))) eq_refl).
Defined.

(** ** Rendering *)

(** X18: The Next button is greyed out exactly when a click on it would do
    nothing, and it is then labelled Final.  The Prev button is greyed out
    on episode 0 only: from a non-negative index that is exactly when a
    click would do nothing, but after a restore to a negative index the
    button is live and its click still does nothing. *)
Theorem buttons_match_handlers (t : Z) (s : Stage) :
  (nextDisabled s = true <-> goToNextEpisode t s = s) /\
  (nextDisabled s = true <-> nextLabel s = js "Final") /\
  (0 <= currentEpisode s ->
   (previousDisabled s = true <-> goToPreviousEpisode t s = s)) /\
  (currentEpisode s < 0 ->
   previousDisabled s = false /\ goToPreviousEpisode t s = s).
Proof.
  unfold nextDisabled, previousDisabled, nextLabel, isLastEpisode, isFirstEpisode.
  split; [|split; [|split]].
  - unfold goToNextEpisode.
    destruct (Z.geb_spec (currentEpisode s) (totalEpisodes s - 1));
      destruct (Z.ltb_spec (currentEpisode s) (totalEpisodes s - 1)); try lia.
    + done.
    + split; [done|]. intros Heq%(f_equal currentEpisode). revert Heq.
      destruct (_ >=? _); stage_simpl; lia.
  - destruct (currentEpisode s >=? totalEpisodes s - 1); split; done.
  - intros Hcur. unfold goToPreviousEpisode.
    destruct (Z.eqb_spec (currentEpisode s) 0) as [Hzero|Hpos];
      destruct (Z.gtb_spec (currentEpisode s) 0); try lia.
    + done.
    + split; [done|]. intros Heq%(f_equal currentEpisode). revert Heq.
      stage_simpl. lia.
  - intros Hneg. unfold goToPreviousEpisode.
    destruct (Z.eqb_spec (currentEpisode s) 0); [lia|].
    destruct (Z.gtb_spec (currentEpisode s) 0); [lia|done].
Qed.

Lemma buttons_match_handlers_witness :
  0 <= currentEpisode pilotStage /\
  previousDisabled pilotStage = true /\
  goToPreviousEpisode 1 pilotStage = pilotStage /\
  currentEpisode
    (setState 1 (Some (MessageState.mk (Some (Num (-2))) 0 None None)) pilotStage) < 0 /\
  previousDisabled
    (setState 1 (Some (MessageState.mk (Some (Num (-2))) 0 None None)) pilotStage)
  = false.
Proof.
  assert (0 <= currentEpisode pilotStage) as Hcur by (vm_compute; discriminate).
  assert (currentEpisode
            (setState 1 (Some (MessageState.mk (Some (Num (-2))) 0 None None)) pilotStage)
          < 0) as Hneg by reflexivity.
  split; [exact Hcur|]. split; [reflexivity|].
  split; [exact (proj1 (proj1 (proj2 (proj2 (buttons_match_handlers 1 pilotStage))) Hcur)
                   eq_refl)|].
  split; [exact Hneg|].
  exact (proj1 (proj2 (proj2 (proj2 (buttons_match_handlers 1 _))) Hneg)).
Defined.

(** ** Configuration *)

Lemma constructor_config (now : Z) (data : InitialData.t) :
  config (constructor now data)
  = match InitialData.config data with
    | Some c => mergeConfig defaultConfig c
    | None => defaultConfig
    end.
Proof.
  unfold constructor.
  destruct (InitialData.config data),
    (InitialData.characters data) as [| |[|mainChar others]];
    try destruct (Character.alternate_greetings mainChar);
    by stage_simpl.
Qed.


(** ** Buttons on a restored index *)

Lemma step_toward_range (s : Stage) (e : Event) :
  isNavigation e = true ->
  Z.min (currentEpisode s) 0 <= currentEpisode (step s e)
    <= Z.max (currentEpisode s) (totalEpisodes s - 1).
Proof.
  intros Hnav.
  destruct e as [|? ? ? ?|? ? ? ?|? [st|]| | |]; try discriminate Hnav; cbn [step].
  - unfold beforePrompt. stage_simpl. lia.
  - destruct (goToNextEpisode_fields now s) as (_ & _ & _ & -> & _).
    destruct (Z.ltb_spec (currentEpisode s) (totalEpisodes s - 1)); lia.
  - destruct (goToPreviousEpisode_fields now s) as (_ & _ & _ & -> & _).
    destruct (Z.gtb_spec (currentEpisode s) 0); lia.
Qed.

(** X20: The buttons never carry an integer index further out of the catalog
    than a restore has put it: from any state whose [currentEpisode] is an
    integer, whatever integer [setState] stored, a history of clicks and
    turn starts keeps [currentEpisode] between [min currentEpisode 0] and
    [max currentEpisode (totalEpisodes - 1)] of the starting state.  Next
    does nothing at or above the last episode and Prev nothing at or below
    the first.  (A fractional index, which the stage never produces itself,
    is outside this statement.) *)
Theorem navigation_never_strays (es : list Event) (s : Stage) :
  forallb isNavigation es = true ->
  Z.min (currentEpisode s) 0 <= currentEpisode (run es s)
    <= Z.max (currentEpisode s) (totalEpisodes s - 1).
Proof.
  intros Hnav. induction es as [|e es IH] using rev_ind; [cbn; lia|].
  rewrite forallb_app in Hnav. cbn in Hnav.
  apply andb_prop in Hnav as [Hes He]. rewrite andb_true_r in He.
  rewrite run_snoc. pose proof (step_toward_range (run es s) e He) as Hstep.
  destruct (run_catalog es s) as (Htotal & _). rewrite Htotal in Hstep.
  specialize (IH Hes). lia.
Qed.

Lemma navigation_never_strays_witness :
  forallb isNavigation [EvNext 2; EvPrevious 3; EvPrevious 4] = true /\
  0 <= currentEpisode
         (run [EvNext 2; EvPrevious 3; EvPrevious 4]
            (setState 1 (Some (MessageState.mk (Some (Num 7)) 0 None None)) pilotStage))
    <= 7.
Proof.
  split; [reflexivity|].
  exact (navigation_never_strays [EvNext 2; EvPrevious 3; EvPrevious 4]
           (setState 1 (Some (MessageState.mk (Some (Num 7)) 0 None None)) pilotStage)
           eq_refl).
Defined.

